(** * Distributed cloud storage: content addressing, splitter/joiner, sealing

    A shallow embedding of the Go packages [pkg/types] (identifier
    derivation), [pkg/utils] (SplitData, JoinChunks, GetStoragePath,
    ValidateFileID) and [internal/crypto] (Encrypt, Decrypt), with the
    properties the specification states about them.

    Conventions.
    - A Go [[]byte] is a [list byte]; the nil slice and the empty slice are
      both [[]] (the code never tells them apart).
    - A Go [string] is a [string]; [len] counts its bytes.
    - A Go [int] is a [Z] kept in the 64-bit two's complement range by
      [Go.wrap] after every addition.
    - A call that may panic returns an [outcome]; a call that returns
      [(value, error)] returns that pair. *)

From Stdlib Require Import ZArith List Lia Bool String Ascii.
From Stdlib Require Import Strings.Byte.
Import ListNotations.
Open Scope Z_scope.

(* ================================================================= *)
(** ** The Go runtime: integers, slices, panics *)

Module Go.

(** What a call does: it returns, it panics, or (an artefact of the bounded
    loops below, shown never to happen) the loop bound ran out. *)
Inductive outcome (A : Type) : Type :=
| Ret (a : A)
| Panic
| Timeout.
Arguments Ret {A} a.
Arguments Panic {A}.
Arguments Timeout {A}.

Definition bind {A B : Type} (m : outcome A) (k : A -> outcome B)
    : outcome B :=
  match m with
  | Ret a => k a
  | Panic => Panic
  | Timeout => Timeout
  end.

(** [int] on the 64-bit targets the Dockerfile builds for. *)
Definition max_int : Z := 2 ^ 63 - 1.
Definition min_int : Z := - 2 ^ 63.
Definition is_int (z : Z) : Prop := min_int <= z <= max_int.

(** Two's complement wrap-around of an [int] result. *)
Definition wrap (z : Z) : Z := (z + 2 ^ 63) mod 2 ^ 64 - 2 ^ 63.

(** [len(s)] *)
Definition len {A : Type} (s : list A) : Z := Z.of_nat (List.length s).

(** The runtime never allocates more than [maxAlloc] bytes (2^48 on 64-bit
    Linux), so every byte slice a program holds satisfies [allocated]. *)
Definition maxAlloc : Z := 2 ^ 48.
Definition allocated {A : Type} (s : list A) : Prop := len s <= maxAlloc.

(** The slice expression [s[lo:hi]]: a run-time panic unless
    [0 <= lo <= hi <= len(s)]. (Go checks [hi] against the capacity; the
    model gives every slice the capacity of its length, and the code below
    never slices past [len].) *)
Definition slice {A : Type} (s : list A) (lo hi : Z) : outcome (list A) :=
  if (0 <=? lo) && (lo <=? hi) && (hi <=? len s)
  then Ret (firstn (Z.to_nat (hi - lo)) (skipn (Z.to_nat lo) s))
  else Panic.

(** [len(s)] of a string, and the slice expression [s[lo:hi]] on it. *)
Definition strlen (s : string) : Z := Z.of_nat (String.length s).

Definition slice_string (s : string) (lo hi : Z) : outcome string :=
  if (0 <=? lo) && (lo <=? hi) && (hi <=? strlen s)
  then Ret (substring (Z.to_nat lo) (Z.to_nat (hi - lo)) s)
  else Panic.

(** [byte(i)]: conversion of an [int] to [uint8] keeps the low eight bits. *)
Definition byte_of_int (i : Z) : byte :=
  match Byte.of_N (Z.to_N (i mod 256)) with
  | Some b => b
  | None => x00
  end.

(** The index expression [s[i]]: a run-time panic unless
    [0 <= i < len(s)]. *)
Definition index {A : Type} (s : list A) (i : Z) : outcome A :=
  if i <? 0 then Panic
  else match nth_error s (Z.to_nat i) with
       | Some x => Ret x
       | None => Panic
       end.

Definition index_string (s : string) (i : Z) : outcome ascii :=
  if i <? 0 then Panic
  else match String.get (Z.to_nat i) s with
       | Some c => Ret c
       | None => Panic
       end.

(** [make([]byte, n)]: [n] zero bytes; a run-time panic when [n] is
    negative or more than the runtime allocates. *)
Definition make_bytes (n : Z) : outcome (list byte) :=
  if (n <? 0) || (maxAlloc <? n) then Panic
  else Ret (repeat x00 (Z.to_nat n)).

(** Integer division truncates toward zero. *)
Definition div (a b : Z) : Z := Z.quot a b.

End Go.

Import Go.

Notation "x <- m ;; k" := (Go.bind m (fun x => k))
  (at level 61, m at next level, right associativity).

(* ================================================================= *)
(** ** The standard library as the code uses it *)

(** Go's [error] values that these packages create or receive. *)
Inductive error : Type :=
| errors_New (msg : string)
| hex_InvalidByteError (b : ascii)
| hex_ErrLength
| aes_KeySizeError (n : Z)
| io_EOF
| io_ErrUnexpectedEOF
| cipher_errOpen.

(** *** crypto/sha256 (FIPS 180-4), on 32-bit words held in [Z] *)

Module sha256.

Definition add32 (a b : Z) : Z := (a + b) mod 2 ^ 32.
Definition not32 (x : Z) : Z := Z.lxor x (2 ^ 32 - 1).
Definition rotr (n x : Z) : Z :=
  Z.lor (Z.shiftr x n) (Z.shiftl x (32 - n) mod 2 ^ 32).
Definition xor3 (x y z : Z) : Z := Z.lxor (Z.lxor x y) z.

Definition Ch (x y z : Z) : Z := Z.lxor (Z.land x y) (Z.land (not32 x) z).
Definition Maj (x y z : Z) : Z :=
  xor3 (Z.land x y) (Z.land x z) (Z.land y z).
Definition Sigma0 (x : Z) : Z := xor3 (rotr 2 x) (rotr 13 x) (rotr 22 x).
Definition Sigma1 (x : Z) : Z := xor3 (rotr 6 x) (rotr 11 x) (rotr 25 x).
Definition sigma0 (x : Z) : Z := xor3 (rotr 7 x) (rotr 18 x) (Z.shiftr x 3).
Definition sigma1 (x : Z) : Z := xor3 (rotr 17 x) (rotr 19 x) (Z.shiftr x 10).

(** The round constants are the first 32 fractional bits of the cube roots
    of the first 64 primes, the initial state those of the square roots of
    the first 8; they are computed here rather than tabulated. *)
Definition is_prime (n : nat) : bool :=
  forallb (fun d => negb (Nat.eqb (Nat.modulo n d) 0)) (seq 2 (n - 2)).

Definition primes : list Z :=
  Eval vm_compute in map Z.of_nat (filter is_prime (seq 2 310)).

Fixpoint cube_root_bits (bit : nat) (n r : Z) : Z :=
  match bit with
  | O => r
  | S bit' =>
      let c := r + 2 ^ Z.of_nat bit' in
      cube_root_bits bit' n (if c * c * c <=? n then c else r)
  end.

Definition K : list Z :=
  Eval vm_compute in
    map (fun p => cube_root_bits 40 (p * 2 ^ 96) 0 mod 2 ^ 32) primes.

Definition init : list Z :=
  Eval vm_compute in
    map (fun p => Z.sqrt (p * 2 ^ 64) mod 2 ^ 32) (firstn 8 primes).

(** The eight working variables. *)
Record state : Type := State { sa : Z; sb : Z; sc : Z; sd : Z;
                               se : Z; sf : Z; sg : Z; sh : Z }.

Definition init_state : state :=
  match init with
  | [a; b; c; d; e; f; g; h] => State a b c d e f g h
  | _ => State 0 0 0 0 0 0 0 0
  end.

(** Message schedule, newest word first. *)
Fixpoint extend (n : nat) (w : list Z) : list Z :=
  match n with
  | O => w
  | S n' =>
      let x := add32 (add32 (sigma1 (nth 1 w 0)) (nth 6 w 0))
                     (add32 (sigma0 (nth 14 w 0)) (nth 15 w 0)) in
      extend n' (x :: w)
  end.

Definition schedule (block : list Z) : list Z := rev (extend 48 (rev block)).

Definition round (s : state) (kw : Z * Z) : state :=
  let t1 := add32 (add32 (add32 (sh s) (Sigma1 (se s)))
                         (add32 (Ch (se s) (sf s) (sg s)) (fst kw)))
                  (snd kw) in
  let t2 := add32 (Sigma0 (sa s)) (Maj (sa s) (sb s) (sc s)) in
  State (add32 t1 t2) (sa s) (sb s) (sc s)
        (add32 (sd s) t1) (se s) (sf s) (sg s).

Definition compress (s : state) (block : list Z) : state :=
  let r := fold_left round (combine K (schedule block)) s in
  State (add32 (sa s) (sa r)) (add32 (sb s) (sb r))
        (add32 (sc s) (sc r)) (add32 (sd s) (sd r))
        (add32 (se s) (se r)) (add32 (sf s) (sf r))
        (add32 (sg s) (sg r)) (add32 (sh s) (sh r)).

(** Big-endian words of a block of bytes. *)
Fixpoint words (l : list Z) : list Z :=
  match l with
  | a :: b :: c :: d :: r =>
      (a * 2 ^ 24 + b * 2 ^ 16 + c * 2 ^ 8 + d) :: words r
  | _ => []
  end.

Fixpoint blocks (n : nat) (s : state) (msg : list Z) : state :=
  match n with
  | O => s
  | S n' => blocks n' (compress s (words (firstn 64 msg))) (skipn 64 msg)
  end.

Definition be_bytes (width : nat) (x : Z) : list Z :=
  map (fun k => Z.shiftr x (8 * Z.of_nat k) mod 256) (rev (seq 0 width)).

Definition pad (msg : list byte) : list Z :=
  map (fun b => Z.of_N (Byte.to_N b)) msg
  ++ [128]
  ++ repeat 0 (Z.to_nat ((55 - len msg) mod 64))
  ++ be_bytes 8 (8 * len msg).

(** [sha256.Sum256(data)], as a slice of [Size] bytes. *)
Definition Size : Z := 32.

Definition Sum256 (data : list byte) : list byte :=
  let m := pad data in
  let s := blocks (List.length m / 64) init_state m in
  map byte_of_int
    (flat_map (be_bytes 4)
       [sa s; sb s; sc s; sd s; se s; sf s; sg s; sh s]).

(** The [hash.Hash] returned by [sha256.New()]: what matters of its state is
    the bytes written so far. *)
Record digest : Type := Digest { written : list byte }.

Definition New : digest := Digest [].
Definition Write (d : digest) (p : list byte) : digest :=
  Digest (written d ++ p).
(** [d.Sum(b)] appends the hash of everything written to [b]. *)
Definition Sum (d : digest) (b : list byte) : list byte :=
  b ++ Sum256 (written d).

End sha256.

Arguments sha256.Sum256 : simpl never.

(** *** encoding/hex *)

Module hex.

Definition hextable : string := "0123456789abcdef".

(** [hextable[n]] *)
Definition hexdigit (n : N) : ascii :=
  match String.get (N.to_nat n) hextable with
  | Some c => c
  | None => "0"%char
  end.

(** [hex.EncodeToString(src)] *)
Fixpoint EncodeToString (src : list byte) : string :=
  match src with
  | [] => EmptyString
  | v :: rest =>
      String (hexdigit (N.shiftr (Byte.to_N v) 4))
        (String (hexdigit (N.land (Byte.to_N v) 15))
           (EncodeToString rest))
  end.

(** [fromHexChar(c)]: the value of a hexadecimal digit, of either case. *)
Definition fromHexChar (c : ascii) : option N :=
  let n := N_of_ascii c in
  (if (48 <=? n) && (n <=? 57) then Some (n - 48)
   else if (97 <=? n) && (n <=? 102) then Some (n - 97 + 10)
   else if (65 <=? n) && (n <=? 70) then Some (n - 65 + 10)
   else None)%N.

Definition byte_of_N (n : N) : byte :=
  match Byte.of_N n with Some b => b | None => x00 end.

(** [hex.DecodeString(s)]: the bytes decoded before the first error, and
    that error. *)
Fixpoint DecodeString (s : string) : list byte * option error :=
  match s with
  | EmptyString => ([], None)
  | String p EmptyString =>
      match fromHexChar p with
      | None => ([], Some (hex_InvalidByteError p))
      | Some _ => ([], Some hex_ErrLength)
      end
  | String p (String q rest) =>
      match fromHexChar p, fromHexChar q with
      | None, _ => ([], Some (hex_InvalidByteError p))
      | Some _, None => ([], Some (hex_InvalidByteError q))
      | Some a, Some b =>
          let (out, err) := DecodeString rest in
          (byte_of_N (N.lor (N.shiftl a 4) b) :: out, err)
      end
  end.

End hex.

(** *** crypto/rand and io *)

Module rand.

(** [rand.Reader]: the bytes the system's random source delivers next. The
    source is global state in Go; here it is passed in and handed back. *)
Definition Reader : Type := list byte.

End rand.

Module io.

(** [io.ReadFull(r, buf)] for a buffer of [n] bytes: the bytes read and the
    error, then the reader after the call. It reads exactly [n] bytes or
    reports [EOF] (nothing read) or [ErrUnexpectedEOF]. *)
Definition ReadFull (r : rand.Reader) (n : Z)
    : (list byte * option error) * rand.Reader :=
  if n <=? len r
  then ((firstn (Z.to_nat n) r, None), skipn (Z.to_nat n) r)
  else ((r, Some (if len r =? 0 then io_EOF else io_ErrUnexpectedEOF)), []).

End io.

(** [rand.Read(b)] for a buffer of [n] bytes: [io.ReadFull] on
    [rand.Reader]. *)
Definition rand_Read (r : rand.Reader) (n : Z)
    : (list byte * option error) * rand.Reader :=
  io.ReadFull r n.

(** *** fmt *)

Module fmt.

(** Formatting itself is not modelled: a formatted string is the call that
    makes it, the format and its operands. [Float64Quot a b] is the operand
    [float64(a)/float64(b)]. *)
Inductive operand : Type :=
| Int (z : Z)
| Float64Quot (a b : Z)
| Char (c : ascii)
| Str (s : string).

Inductive formatted : Type :=
| Sprintf (format : string) (operands : list operand).

End fmt.

(** *** crypto/aes and crypto/cipher *)

Module aes.

(** A [cipher.Block] made by [aes.NewCipher]: it stands for its key. *)
Record Block : Type := { block_key : list byte }.

Definition BlockSize : Z := 16.

(** [aes.NewCipher(key)]: [KeySizeError] unless the key has 16, 24 or 32
    bytes. *)
Definition NewCipher (key : list byte) : option Block * option error :=
  let k := len key in
  if (k =? 16) || (k =? 24) || (k =? 32)
  then (Some {| block_key := key |}, None)
  else (None, Some (aes_KeySizeError k)).

End aes.

Module cipher.

(** The Galois/Counter mode of AES itself is not modelled: [gcm_seal] is the
    ciphertext followed by the tag, [gcm_open] its authenticated inverse.
    [gcm_seal] panics on a message that is too large for GCM. *)
Class GCM : Type := {
  gcm_seal : list byte -> list byte -> list byte -> list byte
             -> outcome (list byte);
  gcm_open : list byte -> list byte -> list byte -> list byte
             -> option (list byte)
}.

(** The longest plaintext GCM seals: [((1 << 32) - 2) * BlockSize] bytes. *)
Definition gcm_max_plaintext : Z := (2 ^ 32 - 2) * aes.BlockSize.

(** What the code relies on: under an AES-256 key and a standard nonce,
    sealing a message within the limit returns, and opening what was sealed
    gives the message back. *)
Class GCM_correct (G : GCM) : Prop := {
  gcm_seal_returns : forall key nonce plaintext data,
    len key = 32 -> len nonce = 12 -> len plaintext <= gcm_max_plaintext ->
    exists sealed, gcm_seal key nonce plaintext data = Ret sealed;
  gcm_open_seal : forall key nonce plaintext data sealed,
    len key = 32 -> len nonce = 12 ->
    gcm_seal key nonce plaintext data = Ret sealed ->
    gcm_open key nonce sealed data = Some plaintext
}.

(** The [cipher.AEAD] made by [cipher.NewGCM]. *)
Record AEAD : Type := { aead_key : list byte }.

(** [cipher.NewGCM(block)]: an error only for a block size other than 16,
    which no AES block has. *)
Definition NewGCM (block : aes.Block) : option AEAD * option error :=
  if aes.BlockSize =? 16
  then (Some {| aead_key := aes.block_key block |}, None)
  else (None, Some (errors_New "cipher: NewGCM requires 128-bit block cipher")).

Definition NonceSize (g : AEAD) : Z := 12.

(** [g.Seal(dst, nonce, plaintext, additionalData)] appends the sealed
    message to [dst]; it panics on a nonce of the wrong length. *)
Definition Seal {G : GCM} (g : AEAD)
    (dst nonce plaintext additionalData : list byte) : outcome (list byte) :=
  if negb (len nonce =? NonceSize g) then Panic
  else
    sealed <- gcm_seal (aead_key g) nonce plaintext additionalData ;;
    Ret (dst ++ sealed).

(** [g.Open(dst, nonce, ciphertext, additionalData)] *)
Definition Open {G : GCM} (g : AEAD)
    (dst nonce ciphertext additionalData : list byte)
    : outcome (list byte * option error) :=
  if negb (len nonce =? NonceSize g) then Panic
  else
    match gcm_open (aead_key g) nonce ciphertext additionalData with
    | Some plaintext => Ret (dst ++ plaintext, None)
    | None => Ret ([], Some cipher_errOpen)
    end.

End cipher.

(* ================================================================= *)
(** ** Package types: identifiers *)

Module types.

(** [func GenerateFileID(name string, content []byte) string] *)
Definition GenerateFileID (name : string) (content : list byte) : string :=
  let hasher := sha256.New in
  let hasher := sha256.Write hasher (list_byte_of_string name) in
  let hasher := sha256.Write hasher content in
  hex.EncodeToString (sha256.Sum hasher []).

(** [func GenerateChunkID(fileID string, index int, content []byte) string] *)
Definition GenerateChunkID (fileID : string) (index : Z)
    (content : list byte) : string :=
  let hasher := sha256.New in
  let hasher := sha256.Write hasher (list_byte_of_string fileID) in
  let hasher := sha256.Write hasher [byte_of_int index] in
  let hasher := sha256.Write hasher content in
  hex.EncodeToString (sha256.Sum hasher []).

(** [func CalculateHash(data []byte) string] *)
Definition CalculateHash (data : list byte) : string :=
  let hasher := sha256.New in
  let hasher := sha256.Write hasher data in
  hex.EncodeToString (sha256.Sum hasher []).

(** [type NodeStatus int] with its constants, and [type MessageType int]. *)
Definition NodeStatus : Type := Z.
Definition NodeStatusOnline : NodeStatus := 0.
Definition NodeStatusOffline : NodeStatus := 1.
Definition NodeStatusSuspended : NodeStatus := 2.
Definition NodeStatusMaintenance : NodeStatus := 3.

(** [func (s NodeStatus) String() string] *)
Definition NodeStatus_String (s : NodeStatus) : string :=
  if s =? NodeStatusOnline then "online"
  else if s =? NodeStatusOffline then "offline"
  else if s =? NodeStatusSuspended then "suspended"
  else if s =? NodeStatusMaintenance then "maintenance"
  else "unknown".

Definition MessageType : Type := Z.
Definition MessageTypeFileRequest : MessageType := 0.
Definition MessageTypeFileResponse : MessageType := 1.
Definition MessageTypeChunkRequest : MessageType := 2.
Definition MessageTypeChunkResponse : MessageType := 3.
Definition MessageTypeNodeAnnouncement : MessageType := 4.
Definition MessageTypeHeartbeat : MessageType := 5.
Definition MessageTypeSyncRequest : MessageType := 6.
Definition MessageTypeSyncResponse : MessageType := 7.

(** [func (m MessageType) String() string] *)
Definition MessageType_String (m : MessageType) : string :=
  if m =? MessageTypeFileRequest then "file_request"
  else if m =? MessageTypeFileResponse then "file_response"
  else if m =? MessageTypeChunkRequest then "chunk_request"
  else if m =? MessageTypeChunkResponse then "chunk_response"
  else if m =? MessageTypeNodeAnnouncement then "node_announcement"
  else if m =? MessageTypeHeartbeat then "heartbeat"
  else if m =? MessageTypeSyncRequest then "sync_request"
  else if m =? MessageTypeSyncResponse then "sync_response"
  else "unknown".

(** [time.Time], with 0 for its zero value. *)
Definition Time : Type := Z.

(** [type ChunkInfo struct] *)
Record ChunkInfo : Type := {
  Chunk_ID : string; Chunk_Index : Z; Chunk_Size : Z; Chunk_Hash : string;
  NodeIDs : list string; Checksum : string }.

(** [type FileInfo struct] *)
Record FileInfo : Type := {
  ID : string; Name : string; Size : Z; Hash : string;
  ContentType : string; CreatedAt : Time; UpdatedAt : Time; Owner : string;
  Chunks : list ChunkInfo; Replicas : Z; IsEncrypted : bool }.

End types.

(* ================================================================= *)
(** ** Package utils *)

Module utils.

(** The [for i := 0; i < len(data); i += chunkSize] loop of SplitData,
    entered at [i] with [chunks] collected so far. *)
Fixpoint SplitData_loop (fuel : nat) (data : list byte) (chunkSize i : Z)
    (chunks : list (list byte)) : outcome (list (list byte)) :=
  if i <? len data then
    match fuel with
    | O => Timeout
    | S fuel' =>
        let end_ := wrap (i + chunkSize) in
        let end_ := if end_ >? len data then len data else end_ in
        match slice data i end_ with
        | Ret chunk =>
            SplitData_loop fuel' data chunkSize (wrap (i + chunkSize))
              (chunks ++ [chunk])
        | Panic => Panic
        | Timeout => Timeout
        end
    end
  else Ret chunks.

(** [func SplitData(data []byte, chunkSize int) [][]byte] *)
Definition SplitData (data : list byte) (chunkSize : Z)
    : outcome (list (list byte)) :=
  if chunkSize <=? 0 then Ret [data]
  else SplitData_loop (List.length data) data chunkSize 0 [].

(** [func JoinChunks(chunks [][]byte) []byte] *)
Definition JoinChunks (chunks : list (list byte)) : list byte :=
  fold_left (fun result chunk => result ++ chunk) chunks [].

(** [func GetStoragePath(baseDir, fileID string) string]; [filepath.Join]
    is the standard library's and is left as a parameter. *)
Definition GetStoragePath (filepath_Join : list string -> string)
    (baseDir fileID : string) : outcome string :=
  match slice_string fileID 0 2 with
  | Ret subDir => Ret (filepath_Join [baseDir; subDir; fileID])
  | Panic => Panic
  | Timeout => Timeout
  end.

(** [func ValidateFileID(fileID string) bool] *)
Definition ValidateFileID (fileID : string) : bool :=
  if negb (strlen fileID =? 64) then false
  else
    let (_, err) := hex.DecodeString fileID in
    match err with None => true | Some _ => false end.

(** [func GenerateRandomID(length int) (string, error)], with the random
    source passed in and handed back. *)
Definition GenerateRandomID (rand_Reader : rand.Reader) (length : Z)
    : outcome ((string * option error) * rand.Reader) :=
  bytes <- make_bytes (Go.div length 2) ;;
  match rand_Read rand_Reader (len bytes) with
  | ((_, Some err), rand_Reader') => Ret ((EmptyString, Some err), rand_Reader')
  | ((bytes', None), rand_Reader') =>
      Ret ((hex.EncodeToString bytes', None), rand_Reader')
  end.

(** [const unit = 1024] of FormatBytes. *)
Definition FormatBytes_unit : Z := 1024.

(** The [for n := bytes / unit; n >= unit; n /= unit] loop of FormatBytes,
    with [div] and [exp] as they stand. *)

Fixpoint FormatBytes_loop (fuel : nat) (n div exp : Z) : outcome (Z * Z) :=
  if n >=? FormatBytes_unit then
    match fuel with
    | O => Timeout
    | S fuel' =>
        FormatBytes_loop fuel' (Go.div n FormatBytes_unit) (wrap (div * FormatBytes_unit))
          (wrap (exp + 1))
    end
  else Ret (div, exp).

(** [func FormatBytes(bytes int64) string], up to the calls of
    [fmt.Sprintf]. *)
Definition FormatBytes (bytes : Z) : outcome fmt.formatted :=
  if bytes <? FormatBytes_unit then Ret (fmt.Sprintf "%d B" [fmt.Int bytes])
  else
    r <- FormatBytes_loop 64 (Go.div bytes FormatBytes_unit) FormatBytes_unit 0 ;;
    c <- index_string "KMGTPE" (snd r) ;;
    Ret (fmt.Sprintf "%.1f %cB" [fmt.Float64Quot bytes (fst r); fmt.Char c]).

End utils.

(* ================================================================= *)
(** ** Package crypto *)

Module crypto.

Definition EncryptionKey : Type := list byte.

Definition errKeyLength : error :=
  errors_New "key must be 32 bytes for AES-256".
Definition errTooShort : error := errors_New "ciphertext too short".

(** [func DeriveKey(password string) EncryptionKey] *)
Definition DeriveKey (password : string) : EncryptionKey :=
  sha256.Sum256 (list_byte_of_string password).

(** [func GenerateKey() (EncryptionKey, error)], with the random source
    passed in and handed back. *)
Definition GenerateKey (rand_Reader : rand.Reader)
    : outcome ((EncryptionKey * option error) * rand.Reader) :=
  key <- make_bytes 32 ;;
  match rand_Read rand_Reader (len key) with
  | ((_, Some err), rand_Reader') => Ret (([], Some err), rand_Reader')
  | ((key', None), rand_Reader') => Ret ((key', None), rand_Reader')
  end.

(** [func Hash(data []byte) []byte] *)
Definition Hash (data : list byte) : list byte := sha256.Sum256 data.

(** The [for i := range actualHash] loop of VerifyHash over the indices
    still to visit. *)
Fixpoint VerifyHash_loop (indices : list nat)
    (actualHash expectedHash : list byte) : outcome bool :=
  match indices with
  | [] => Ret true
  | i :: rest =>
      a <- index actualHash (Z.of_nat i) ;;
      e <- index expectedHash (Z.of_nat i) ;;
      if negb (Byte.eqb a e) then Ret false
      else VerifyHash_loop rest actualHash expectedHash
  end.

(** [func VerifyHash(data []byte, expectedHash []byte) bool] *)
Definition VerifyHash (data expectedHash : list byte) : outcome bool :=
  let actualHash := Hash data in
  if negb (len actualHash =? len expectedHash) then Ret false
  else
    VerifyHash_loop (seq 0 (List.length actualHash)) actualHash expectedHash.

Section WithGCM.
Context {G : cipher.GCM}.

(** [func Encrypt(data []byte, key EncryptionKey) ([]byte, error)], with
    the random source before the call as an argument and after it as a
    result. *)
Definition Encrypt (rand_Reader : rand.Reader) (data : list byte)
    (key : EncryptionKey)
    : outcome ((list byte * option error) * rand.Reader) :=
  if negb (len key =? 32) then Ret (([], Some errKeyLength), rand_Reader)
  else
    match aes.NewCipher key with
    | (_, Some err) => Ret (([], Some err), rand_Reader)
    | (None, None) => Panic
    | (Some block, None) =>
        match cipher.NewGCM block with
        | (_, Some err) => Ret (([], Some err), rand_Reader)
        | (None, None) => Panic
        | (Some gcm, None) =>
            match io.ReadFull rand_Reader (cipher.NonceSize gcm) with
            | ((_, Some err), rand_Reader') =>
                Ret (([], Some err), rand_Reader')
            | ((nonce, None), rand_Reader') =>
                ciphertext <- cipher.Seal gcm nonce nonce data [] ;;
                Ret ((ciphertext, None), rand_Reader')
            end
        end
    end.

(** [func Decrypt(ciphertext []byte, key EncryptionKey) ([]byte, error)] *)
Definition Decrypt (ciphertext : list byte) (key : EncryptionKey)
    : outcome (list byte * option error) :=
  if negb (len key =? 32) then Ret ([], Some errKeyLength)
  else
    match aes.NewCipher key with
    | (_, Some err) => Ret ([], Some err)
    | (None, None) => Panic
    | (Some block, None) =>
        match cipher.NewGCM block with
        | (_, Some err) => Ret ([], Some err)
        | (None, None) => Panic
        | (Some gcm, None) =>
            let nonceSize := cipher.NonceSize gcm in
            if len ciphertext <? nonceSize then Ret ([], Some errTooShort)
            else
              nonce <- slice ciphertext 0 nonceSize ;;
              ciphertext' <- slice ciphertext nonceSize (len ciphertext) ;;
              opened <- cipher.Open gcm [] nonce ciphertext' [] ;;
              match opened with
              | (_, Some err) => Ret ([], Some err)
              | (plaintext, None) => Ret (plaintext, None)
              end
        end
    end.

End WithGCM.

End crypto.

(* ================================================================= *)
(** ** Package config *)

Module config.

Record NodeConfig : Type := {
  ID : string; DataDir : string; StorageDir : string;
  MaxStorage : Z; Replicas : Z; ChunkSize : Z }.

Record APIConfig : Type := {
  Host : string; Port : Z; TLS : bool; CertFile : string; KeyFile : string }.

Record StorageConfig : Type := {
  Backend : string; Path : string; MaxFileSize : Z; Compression : bool }.

Record P2PConfig : Type := {
  ListenAddr : string; BootstrapPeers : list string; MaxPeers : Z;
  P2P_PrivateKey : string }.

Record CryptoConfig : Type := {
  Algorithm : string; KeySize : Z; EnableTLS : bool;
  TLSCertPath : string; TLSKeyPath : string }.

Record BlockchainConfig : Type := {
  Network : string; RPCEndpoint : string; ContractAddress : string;
  Blockchain_PrivateKey : string; GasLimit : Z }.

Record LoggingConfig : Type := {
  Level : string; Format : string; Output : string }.

Record Config : Type := {
  Node : NodeConfig; API : APIConfig; Storage : StorageConfig;
  P2P : P2PConfig; Crypto : CryptoConfig; Blockchain : BlockchainConfig;
  Logging : LoggingConfig }.

(** [func DefaultConfig() *Config]; the home directory [os.UserHomeDir]
    reports and [filepath.Join] are parameters. *)
Definition DefaultConfig (filepath_Join : list string -> string)
    (homeDir : string) : Config :=
  let dataDir := filepath_Join [homeDir; ".dcs"%string] in
  {| Node := {| ID := ""; DataDir := dataDir;
                StorageDir := filepath_Join [dataDir; "storage"%string];
                MaxStorage := 10 * 1024 * 1024 * 1024;
                Replicas := 3;
                ChunkSize := 1024 * 1024 |};
     API := {| Host := "localhost"; Port := 8080; TLS := false;
               CertFile := ""; KeyFile := "" |};
     Storage := {| Backend := "filesystem";
                   Path := filepath_Join [dataDir; "files"%string];
                   MaxFileSize := 100 * 1024 * 1024;
                   Compression := true |};
     P2P := {| ListenAddr := "/ip4/0.0.0.0/tcp/4001"; BootstrapPeers := [];
               MaxPeers := 100; P2P_PrivateKey := "" |};
     Crypto := {| Algorithm := "AES-256-GCM"; KeySize := 32;
                  EnableTLS := true; TLSCertPath := ""; TLSKeyPath := "" |};
     Blockchain := {| Network := "polygon-mumbai"; RPCEndpoint := "";
                      ContractAddress := ""; Blockchain_PrivateKey := "";
                      GasLimit := 500000 |};
     Logging := {| Level := "info"; Format := "json"; Output := "stdout" |}
  |}.

(** [func (c *Config) Validate() error]; the error is the message
    [fmt.Errorf] formats. *)
Definition Validate (c : Config) : option fmt.formatted :=
  if ChunkSize (Node c) <=? 0
  then Some (fmt.Sprintf "invalid chunk size: %d"
               [fmt.Int (ChunkSize (Node c))])
  else if Replicas (Node c) <=? 0
  then Some (fmt.Sprintf "invalid replicas count: %d"
               [fmt.Int (Replicas (Node c))])
  else if (Port (API c) <=? 0) || (Port (API c) >? 65535)
  then Some (fmt.Sprintf "invalid API port: %d" [fmt.Int (Port (API c))])
  else if MaxFileSize (Storage c) <=? 0
  then Some (fmt.Sprintf "invalid max file size: %d"
               [fmt.Int (MaxFileSize (Storage c))])
  else None.

End config.

(* ================================================================= *)
(** ** Package api: the file handlers and their metadata map *)

Module api.
Import types.

(** What a handler sends: [c.JSON(status, value)] or
    [c.DataFromReader(status, contentLength, contentType, reader, nil)],
    after the headers set with [c.Header]. Log lines are left out. *)
#[warnings="-register-all"]
Inductive json : Type :=
| JString (s : string)
| JInt (z : Z)
| JObject (fields : list (string * json))
| JFileInfo (f : FileInfo).

Inductive header_value : Type :=
| Literal (s : string)
| Formatted (f : fmt.formatted)
| FormatInt (z base : Z).

Inductive body : Type :=
| JSON (value : json)
| DataFromReader (contentLength : Z) (contentType : string)
    (data : list byte).

Record Response : Type := {
  Status : Z; Headers : list (string * header_value); Body : body }.

Definition StatusOK : Z := 200.
Definition StatusBadRequest : Z := 400.
Definition StatusNotFound : Z := 404.
Definition StatusInternalServerError : Z := 500.

(** [gin.H{"error": msg}] and [gin.H{"message": msg}] *)
Definition H_error (msg : string) : body :=
  JSON (JObject [("error"%string, JString msg)]).
Definition H_message (msg : string) : body :=
  JSON (JObject [("message"%string, JString msg)]).

(** The [*storage.ChunkManager] the server holds. Its package is not among
    the sources: the three methods the handlers call are parameters. Each
    receives the [*FileInfo] and may change both the manager and the
    [FileInfo] pointed to, so each returns the two as it leaves them. *)
Class ChunkManager (M : Type) : Type := {
  StoreFile : M -> FileInfo -> list byte -> (M * FileInfo) * option error;
  RetrieveFile :
    M -> FileInfo -> (M * FileInfo) * (list byte * option error);
  DeleteFile : M -> FileInfo -> (M * FileInfo) * option error
}.

(** [map[string]*types.FileInfo] *)
Definition Files : Type := list (string * FileInfo).

Fixpoint lookup (key : string) (m : Files) : option FileInfo :=
  match m with
  | [] => None
  | (k, v) :: rest => if String.eqb key k then Some v else lookup key rest
  end.

Definition delete (key : string) (m : Files) : Files :=
  filter (fun kv => negb (String.eqb key (fst kv))) m.

Definition insert (key : string) (v : FileInfo) (m : Files) : Files :=
  (key, v) :: delete key m.

(** [type Server struct]: the chunk manager and the metadata map. *)
Record Server (M : Type) : Type := {
  chunkManager : M; files : Files }.
Arguments chunkManager {M} s.
Arguments files {M} s.

(** What [c.Request.FormFile("file")] and then [io.ReadAll(file)] give. *)
Inductive FormFile : Type :=
| FormFile_error (err : error)
| FormFile_file (Filename : string) (Header_ContentType : string)
    (ReadAll : list byte * option error).

(** The [&types.FileInfo{ID: ..., Name: ..., ContentType: ..., Owner: ...}]
    uploadFile creates; the fields it does not name are zero. *)
Definition upload_FileInfo (Filename Header_ContentType X_Owner : string)
    (data : list byte) : FileInfo :=
  {| ID := GenerateFileID Filename data; Name := Filename;
     Size := 0; Hash := ""; ContentType := Header_ContentType;
     CreatedAt := 0; UpdatedAt := 0; Owner := X_Owner;
     Chunks := []; Replicas := 0; IsEncrypted := false |}.

Section Handlers.
Context {M : Type} {CM : ChunkManager M}.

(** [func (s *Server) uploadFile(c *gin.Context)] *)
Definition uploadFile (s : Server M) (form : FormFile) (X_Owner : string)
    : Server M * Response :=
  match form with
  | FormFile_error _ =>
      (s, {| Status := StatusBadRequest; Headers := [];
             Body := H_error "Invalid file" |})
  | FormFile_file Filename Header_ContentType (_, Some _) =>
      (s, {| Status := StatusInternalServerError; Headers := [];
             Body := H_error "Failed to read file" |})
  | FormFile_file Filename Header_ContentType (data, None) =>
      let fileInfo :=
        upload_FileInfo Filename Header_ContentType X_Owner data in
      match StoreFile (chunkManager s) fileInfo data with
      | ((cm, _), Some _) =>
          ({| chunkManager := cm; files := files s |},
           {| Status := StatusInternalServerError; Headers := [];
              Body := H_error "Failed to store file" |})
      | ((cm, fileInfo'), None) =>
          ({| chunkManager := cm;
              files := insert (ID fileInfo') fileInfo' (files s) |},
           {| Status := StatusOK; Headers := [];
              Body := JSON (JObject
                        [("file_id"%string, JString (ID fileInfo'));
                         ("file_name"%string, JString (Name fileInfo'));
                         ("size"%string, JInt (Size fileInfo'));
                         ("hash"%string, JString (Hash fileInfo'))]) |})
      end
  end.

(** [func (s *Server) downloadFile(c *gin.Context)], with
    [fileID := c.Param("id")]. *)
Definition downloadFile (s : Server M) (fileID : string)
    : Server M * Response :=
  match lookup fileID (files s) with
  | None =>
      (s, {| Status := StatusNotFound; Headers := [];
             Body := H_error "File not found" |})
  | Some fileInfo =>
      match RetrieveFile (chunkManager s) fileInfo with
      | ((cm, fileInfo'), (_, Some _)) =>
          ({| chunkManager := cm;
              files := insert fileID fileInfo' (files s) |},
           {| Status := StatusInternalServerError; Headers := [];
              Body := H_error "Failed to retrieve file" |})
      | ((cm, fileInfo'), (data, None)) =>
          ({| chunkManager := cm;
              files := insert fileID fileInfo' (files s) |},
           {| Status := StatusOK;
              Headers :=
                [("Content-Disposition"%string,
                  Formatted (fmt.Sprintf "attachment; filename=%s"
                               [fmt.Str (Name fileInfo')]));
                 ("Content-Type"%string, Literal (ContentType fileInfo'));
                 ("Content-Length"%string, FormatInt (Size fileInfo') 10)];
              Body := DataFromReader (Size fileInfo')
                        (ContentType fileInfo') data |})
      end
  end.

(** [func (s *Server) deleteFile(c *gin.Context)] *)
Definition deleteFile (s : Server M) (fileID : string)
    : Server M * Response :=
  match lookup fileID (files s) with
  | None =>
      (s, {| Status := StatusNotFound; Headers := [];
             Body := H_error "File not found" |})
  | Some fileInfo =>
      match DeleteFile (chunkManager s) fileInfo with
      | ((cm, fileInfo'), Some _) =>
          ({| chunkManager := cm;
              files := insert fileID fileInfo' (files s) |},
           {| Status := StatusInternalServerError; Headers := [];
              Body := H_error "Failed to delete file" |})
      | ((cm, _), None) =>
          ({| chunkManager := cm; files := delete fileID (files s) |},
           {| Status := StatusOK; Headers := [];
              Body := H_message "File deleted successfully" |})
      end
  end.

(** [func (s *Server) getFileInfo(c *gin.Context)] *)
Definition getFileInfo (s : Server M) (fileID : string)
    : Server M * Response :=
  match lookup fileID (files s) with
  | None =>
      (s, {| Status := StatusNotFound; Headers := [];
             Body := H_error "File not found" |})
  | Some fileInfo =>
      (s, {| Status := StatusOK; Headers := [];
             Body := JSON (JFileInfo fileInfo) |})
  end.

End Handlers.

End api.

(* ================================================================= *)
(** ** Instances of the parameters, for running the model *)

Module Instances.

(** A [filepath.Join] for paths that need no cleaning: the elements
    separated by slashes. *)
Definition slash_Join (elem : list string) : string :=
  String.concat "/" elem.

(** A GCM that can be run: the message travels in the clear, followed by a
    16-byte tag, the first half of the SHA-256 of key, nonce, additional
    data and message. *)
Definition tag (key nonce data msg : list byte) : list byte :=
  firstn 16 (sha256.Sum256 (key ++ nonce ++ data ++ msg)).

Definition bytes_eq_dec : forall a b : list byte, {a = b} + {a <> b} :=
  list_eq_dec Byte.byte_eq_dec.

#[export] Instance tagged_gcm : cipher.GCM := {|
  cipher.gcm_seal key nonce plaintext data :=
    if len plaintext >? cipher.gcm_max_plaintext then Panic
    else Ret (plaintext ++ tag key nonce data plaintext);
  cipher.gcm_open key nonce sealed data :=
    if len sealed <? 16 then None
    else
      let n := Z.to_nat (len sealed - 16) in
      if bytes_eq_dec (skipn n sealed) (tag key nonce data (firstn n sealed))
      then Some (firstn n sealed)
      else None
|}.

(** A chunk manager that can be run: it keeps each file whole, in memory,
    under its id, and fills in size and hash. *)
Definition memory : Type := list (string * list byte).

Fixpoint memory_find (id : string) (m : memory) : option (list byte) :=
  match m with
  | [] => None
  | (k, v) :: rest => if String.eqb id k then Some v else memory_find id rest
  end.

#[export] Instance memory_manager : api.ChunkManager memory := {|
  api.StoreFile m f data :=
    (((types.ID f, data) :: m,
      {| types.ID := types.ID f; types.Name := types.Name f;
         types.Size := len data; types.Hash := types.CalculateHash data;
         types.ContentType := types.ContentType f;
         types.CreatedAt := types.CreatedAt f;
         types.UpdatedAt := types.UpdatedAt f;
         types.Owner := types.Owner f; types.Chunks := types.Chunks f;
         types.Replicas := types.Replicas f;
         types.IsEncrypted := types.IsEncrypted f |}), None);
  api.RetrieveFile m f :=
    match memory_find (types.ID f) m with
    | Some data => ((m, f), (data, None))
    | None => ((m, f), ([], Some (errors_New "file not found")))
    end;
  api.DeleteFile m f :=
    ((filter (fun kv => negb (String.eqb (types.ID f) (fst kv))) m, f), None)
|}.

(** Values for running the model. *)
Definition digits : list byte := list_byte_of_string "0123456789".

Definition test_key : crypto.EncryptionKey := crypto.DeriveKey "password".
Definition test_rand : rand.Reader := list_byte_of_string "0123456789abcdef".

End Instances.

(* ================================================================= *)
(** ** Predicates the properties are stated with *)

Module Props.

(** Every chunk but the last has [chunkSize] bytes; the last has between 1
    and [chunkSize]. *)
Fixpoint sizes_ok (chunkSize : Z) (chunks : list (list byte)) : Prop :=
  match chunks with
  | [] => True
  | c :: rest =>
      match rest with
      | [] => 1 <= len c <= chunkSize
      | _ :: _ => len c = chunkSize /\ sizes_ok chunkSize rest
      end
  end.

(** A hexadecimal digit, of either case. *)
Definition is_hex_char (c : ascii) : bool :=
  let n := N_of_ascii c in
  (((48 <=? n) && (n <=? 57)) || ((97 <=? n) && (n <=? 102))
   || ((65 <=? n) && (n <=? 70)))%N.

Fixpoint all_chars (p : ascii -> bool) (s : string) : bool :=
  match s with
  | EmptyString => true
  | String c rest => p c && all_chars p rest
  end.

Definition is_hex_string (s : string) : bool := all_chars is_hex_char s.

(** The hexadecimal encoding of a 256-bit digest: 64 hexadecimal digits. *)
Definition is_digest_id (id : string) : Prop :=
  String.length id = 64%nat
  /\ is_hex_string id = true
  /\ exists digest, len digest = 32 /\ id = hex.EncodeToString digest.

End Props.

(* ================================================================= *)
(** ** Facts about the runtime model *)

Module GoFacts.

(** Settle a boolean comparison on [Z] that linear arithmetic decides. *)
Ltac Zbool_true :=
  symmetry;
  first [apply Z.leb_le | apply Z.ltb_lt | apply Z.eqb_eq | apply Z.gtb_lt];
  lia.
Ltac Zbool_false :=
  symmetry;
  first [apply Z.leb_gt | apply Z.ltb_ge | apply Z.eqb_neq
        | rewrite Z.gtb_ltb; apply Z.ltb_ge];
  lia.

Lemma wrap_id (z : Z) : is_int z -> wrap z = z.
Proof.
  unfold is_int, wrap, min_int, max_int. intros H.
  rewrite Z.mod_small by lia. lia.
Qed.

Lemma wrap_is_int (z : Z) : is_int (wrap z).
Proof.
  unfold is_int, wrap, min_int, max_int.
  pose proof (Z.mod_pos_bound (z + 2 ^ 63) (2 ^ 64) ltac:(lia)). lia.
Qed.

(** An addition that leaves the range comes back negative. *)
Lemma wrap_sum (a b : Z) :
  0 <= a <= max_int -> 0 <= b <= max_int ->
  wrap (a + b) = a + b \/ wrap (a + b) < 0.
Proof.
  unfold wrap, max_int. intros Ha Hb.
  destruct (Z_le_gt_dec (a + b) (2 ^ 63 - 1)) as [Hle|Hgt].
  - left. rewrite Z.mod_small by lia. lia.
  - right.
    replace (a + b + 2 ^ 63) with (a + b - 2 ^ 63 + 1 * 2 ^ 64) by lia.
    rewrite Z.mod_add by lia. rewrite Z.mod_small by lia. lia.
Qed.

Lemma len_nonneg {A : Type} (s : list A) : 0 <= len s.
Proof. unfold len. lia. Qed.

Lemma len_app {A : Type} (s t : list A) : len (s ++ t) = len s + len t.
Proof. unfold len. rewrite length_app. lia. Qed.

Lemma len_nil_iff {A : Type} (s : list A) : len s = 0 <-> s = [].
Proof.
  unfold len. destruct s; simpl; split; intros H; try reflexivity;
    try discriminate; lia.
Qed.

Lemma slice_ok {A : Type} (s : list A) (lo hi : Z) :
  0 <= lo <= hi -> hi <= len s ->
  slice s lo hi = Ret (firstn (Z.to_nat (hi - lo)) (skipn (Z.to_nat lo) s)).
Proof.
  intros H1 H2. unfold slice.
  replace (0 <=? lo) with true by Zbool_true.
  replace (lo <=? hi) with true by Zbool_true.
  replace (hi <=? len s) with true by Zbool_true.
  reflexivity.
Qed.

Lemma slice_panics {A : Type} (s : list A) (lo hi : Z) :
  lo < 0 \/ hi < lo \/ len s < hi -> slice s lo hi = Panic.
Proof.
  intros H. unfold slice.
  destruct (0 <=? lo) eqn:E1; [|reflexivity].
  destruct (lo <=? hi) eqn:E2; [|reflexivity].
  destruct (hi <=? len s) eqn:E3; [|reflexivity].
  apply Z.leb_le in E1, E2, E3. lia.
Qed.

End GoFacts.

(* ================================================================= *)
(** ** SplitData and JoinChunks *)

Module SplitJoin.
Import utils GoFacts Props Instances.

Lemma sizes_ok_inner (chunkSize : Z) (chunks : list (list byte)) :
  sizes_ok chunkSize chunks ->
  forall k, (S k < List.length chunks)%nat ->
            len (nth k chunks []) = chunkSize.
Proof.
  induction chunks as [|c rest IH]; simpl; intros H k Hk; [lia|].
  destruct rest as [|c' rest']; [simpl in Hk; lia|].
  destruct H as [Hc Hrest].
  destruct k as [|k]; [exact Hc|].
  apply IH; [exact Hrest | simpl in *; lia].
Qed.

Lemma sizes_ok_last (chunkSize : Z) (chunks : list (list byte)) :
  sizes_ok chunkSize chunks -> chunks <> [] ->
  1 <= len (last chunks []) <= chunkSize.
Proof.
  induction chunks as [|c rest IH]; intros H Hne; [congruence|].
  destruct rest as [|c' rest']; [exact H|].
  destruct H as [_ Hrest].
  change (last (c :: c' :: rest') []) with (last (c' :: rest') []).
  apply IH; [exact Hrest | discriminate].
Qed.

Lemma JoinChunks_from (chunks : list (list byte)) (acc : list byte) :
  fold_left (fun result chunk => result ++ chunk) chunks acc
  = acc ++ List.concat chunks.
Proof.
  revert acc. induction chunks as [|c rest IH]; intros acc; simpl.
  - now rewrite app_nil_r.
  - rewrite IH. now rewrite app_assoc.
Qed.

Lemma JoinChunks_concat (chunks : list (list byte)) :
  JoinChunks chunks = List.concat chunks.
Proof. unfold JoinChunks. now rewrite JoinChunks_from. Qed.

Section Loop.
Variables (data : list byte) (chunkSize : Z).
Hypothesis chunkSize_pos : 0 < chunkSize <= max_int.
Hypothesis data_small : 2 * len data <= max_int + 1.

(** What the loop returns when entered at offset [i]: the chunks collected
    so far followed by the chunks of [data[i:]]. *)
Lemma SplitData_loop_spec (fuel : nat) :
  forall (i : Z) (chunks : list (list byte)),
    0 <= i -> i = 0 \/ chunkSize <= i ->
    len data - i <= Z.of_nat fuel ->
    exists rest,
      SplitData_loop fuel data chunkSize i chunks = Ret (chunks ++ rest)
      /\ List.concat rest = skipn (Z.to_nat i) data
      /\ (rest = [] <-> len data <= i)
      /\ sizes_ok chunkSize rest
      /\ forall k, (k < List.length rest)%nat ->
           nth k rest []
           = firstn (Z.to_nat chunkSize)
               (skipn (Z.to_nat i + k * Z.to_nat chunkSize) data).
Proof.
  induction fuel as [|fuel IH]; intros i chunks Hi Hinv Hfuel.
  - exists []. simpl. destruct (i <? len data) eqn:E.
    + apply Z.ltb_lt in E. lia.
    + apply Z.ltb_ge in E. rewrite app_nil_r.
      repeat split; try (intros; simpl in *; lia); auto.
      symmetry. apply skipn_all2. unfold len in E. lia.
  - simpl. destruct (i <? len data) eqn:E.
    2:{ apply Z.ltb_ge in E. exists []. rewrite app_nil_r.
        repeat split; try (intros; simpl in *; lia); auto.
        symmetry. apply skipn_all2. unfold len in E. lia. }
    apply Z.ltb_lt in E.
    assert (Hno : is_int (i + chunkSize)).
    { unfold is_int, min_int, max_int in *. lia. }
    rewrite (wrap_id _ Hno).
    set (end_ := if i + chunkSize >? len data then len data
                 else i + chunkSize).
    assert (Hend : i < end_ <= len data /\ end_ - i <= chunkSize
                   /\ (i + chunkSize <= len data -> end_ = i + chunkSize)
                   /\ (len data <= i + chunkSize -> end_ = len data)).
    { unfold end_. destruct (i + chunkSize >? len data) eqn:E2.
      - apply Z.gtb_lt in E2. lia.
      - rewrite Z.gtb_ltb in E2. apply Z.ltb_ge in E2. lia. }
    rewrite slice_ok by lia. simpl.
    destruct (IH (i + chunkSize)
                 (chunks ++ [firstn (Z.to_nat (end_ - i))
                               (skipn (Z.to_nat i) data)]))
      as (rest & Hret & Hcat & Hnil & Hsz & Hnth); try lia.
    set (chunk := firstn (Z.to_nat (end_ - i)) (skipn (Z.to_nat i) data))
      in *.
    assert (Hlen_skip : List.length (skipn (Z.to_nat i) data)
                        = (List.length data - Z.to_nat i)%nat)
      by apply length_skipn.
    assert (Hchunk_len : len chunk = end_ - i).
    { unfold chunk, len. rewrite length_firstn, Hlen_skip.
      unfold len in *. lia. }
    assert (Hchunk_eq : chunk = firstn (Z.to_nat chunkSize)
                                  (skipn (Z.to_nat i) data)).
    { unfold chunk.
      destruct (Z_le_gt_dec (i + chunkSize) (len data)) as [Hle|Hgt].
      - replace end_ with (i + chunkSize) by (symmetry; apply Hend; lia).
        f_equal. lia.
      - replace end_ with (len data) by (symmetry; apply Hend; lia).
        rewrite !firstn_all2; auto; rewrite Hlen_skip; unfold len in *; lia. }
    exists (chunk :: rest).
    split; [rewrite Hret, <- app_assoc; reflexivity|].
    split.
    { simpl. rewrite Hcat.
      destruct (Z_le_gt_dec (i + chunkSize) (len data)) as [Hle|Hgt].
      - rewrite Hchunk_eq.
        replace (Z.to_nat (i + chunkSize))
          with (Z.to_nat chunkSize + Z.to_nat i)%nat by lia.
        rewrite <- skipn_skipn. apply firstn_skipn.
      - rewrite (skipn_all2 (n := Z.to_nat (i + chunkSize)))
          by (unfold len in *; lia).
        rewrite app_nil_r. unfold chunk.
        apply firstn_all2. rewrite Hlen_skip.
        replace end_ with (len data) by (symmetry; apply Hend; lia).
        unfold len in *. lia. }
    split; [split; [discriminate | lia]|].
    split.
    { simpl. destruct rest as [|c' rest'].
      - assert (len data <= i + chunkSize) by (apply Hnil; reflexivity).
        lia.
      - assert (~ len data <= i + chunkSize)
          by (intros Hc; apply Hnil in Hc; discriminate).
        split; [|exact Hsz].
        rewrite Hchunk_len. lia. }
    intros [|k] Hk; simpl.
    + rewrite Hchunk_eq. f_equal. f_equal. lia.
    + rewrite Hnth by (simpl in Hk; lia). f_equal. f_equal. lia.
Qed.

End Loop.

(** The loop bound is an artefact: whatever the chunk size and however
    long the data, the loop returns or panics before the bound runs out. *)
Lemma SplitData_loop_terminates (data : list byte) (chunkSize : Z) :
  0 < chunkSize <= max_int -> len data <= max_int ->
  forall (fuel : nat) (i : Z) (chunks : list (list byte)),
    0 <= i -> len data - i <= Z.of_nat fuel ->
    SplitData_loop fuel data chunkSize i chunks <> Timeout.
Proof.
  intros Hcs Hlen.
  induction fuel as [|fuel IH]; intros i chunks Hi Hfuel; simpl.
  - destruct (i <? len data) eqn:E; [|discriminate].
    apply Z.ltb_lt in E. lia.
  - destruct (i <? len data) eqn:E; [|discriminate].
    apply Z.ltb_lt in E.
    set (w := wrap (i + chunkSize)).
    assert (Hw : w = i + chunkSize \/ w < 0)
      by (apply wrap_sum; lia).
    unfold slice.
    destruct ((0 <=? i)
              && (i <=? (if w >? len data then len data else w))
              && ((if w >? len data then len data else w) <=? len data))
      eqn:Hslice; [|discriminate].
    cbn [bind]. apply IH.
    + apply andb_prop in Hslice. destruct Hslice as [Hslice _].
      apply andb_prop in Hslice. destruct Hslice as [_ Hslice].
      apply Z.leb_le in Hslice.
      destruct (w >? len data) eqn:E2; [apply Z.gtb_lt in E2|]; lia.
    + apply andb_prop in Hslice. destruct Hslice as [Hslice _].
      apply andb_prop in Hslice. destruct Hslice as [_ Hslice].
      apply Z.leb_le in Hslice.
      destruct (w >? len data) eqn:E2; [apply Z.gtb_lt in E2|]; lia.
Qed.

(** SplitData terminates: on every slice and every [int] chunk size it
    returns or panics. *)
Lemma SplitData_terminates (data : list byte) (chunkSize : Z) :
  is_int chunkSize -> len data <= max_int ->
  SplitData data chunkSize <> Timeout.
Proof.
  intros Hcs Hlen. unfold SplitData.
  destruct (chunkSize <=? 0) eqn:E; [discriminate|].
  apply Z.leb_gt in E.
  apply SplitData_loop_terminates; unfold is_int, len in *; lia.
Qed.

Lemma SplitData_terminates_witness :
  SplitData digits 3 <> Timeout.
Proof.
  apply SplitData_terminates.
  - unfold is_int, min_int, max_int. lia.
  - unfold max_int, len. simpl. lia.
Defined.

Lemma allocated_small {A : Type} (s : list A) :
  allocated s -> 2 * len s <= max_int + 1.
Proof. unfold allocated, maxAlloc, max_int. lia. Qed.

(** SplitData on a positive chunk size: it returns, and what it returns. *)
Lemma SplitData_spec (data : list byte) (chunkSize : Z) :
  0 < chunkSize <= max_int -> allocated data ->
  exists chunks,
    SplitData data chunkSize = Ret chunks
    /\ List.concat chunks = data
    /\ (chunks = [] <-> data = [])
    /\ sizes_ok chunkSize chunks
    /\ forall k, (k < List.length chunks)%nat ->
         nth k chunks []
         = firstn (Z.to_nat chunkSize) (skipn (k * Z.to_nat chunkSize) data).
Proof.
  intros Hcs Hdata. unfold SplitData.
  replace (chunkSize <=? 0) with false by Zbool_false.
  destruct (SplitData_loop_spec data chunkSize Hcs (allocated_small _ Hdata)
              (List.length data) 0 [])
    as (rest & Hret & Hcat & Hnil & Hsz & Hnth);
    [lia | now left | unfold len; lia |].
  exists rest. simpl in Hret, Hcat, Hnth.
  repeat split; auto.
  - intros H. apply len_nil_iff. apply Hnil in H. pose proof (len_nonneg data).
    lia.
  - intros H. apply Hnil. rewrite H. unfold len. simpl. lia.
Qed.

(** C1. For every byte string [data] and every chunk size [n > 0],
    [JoinChunks (SplitData data n)] is [data]: SplitData returns, and
    JoinChunks, which concatenates the chunks in sequence order, gives the
    input back; empty data and lengths that are no multiple of [n] are
    included. [n] ranges over the positive values of Go's [int] and [data]
    over the slices the runtime can allocate. *)
Theorem JoinChunks_SplitData (data : list byte) (n : Z) :
  0 < n <= max_int -> allocated data ->
  exists chunks,
    SplitData data n = Ret chunks
    /\ JoinChunks chunks = List.concat chunks
    /\ JoinChunks chunks = data.
Proof.
  intros Hn Hdata.
  destruct (SplitData_spec data n Hn Hdata) as (chunks & Hret & Hcat & _).
  exists chunks. rewrite JoinChunks_concat. auto.
Qed.

Lemma JoinChunks_SplitData_witness :
  exists chunks,
    SplitData digits 3 = Ret chunks
    /\ JoinChunks chunks = List.concat chunks
    /\ JoinChunks chunks = digits.
Proof.
  apply JoinChunks_SplitData.
  - unfold max_int; lia.
  - unfold allocated, maxAlloc, len; simpl; lia.
Defined.

(** C3, as the code has it. When [chunkSize <= 0] SplitData returns the
    whole input as a single segment, for every input (so the empty input
    gives one empty segment there); for every [chunkSize > 0] the empty
    input gives no segment at all. *)
Theorem SplitData_edge_cases :
  (forall data chunkSize,
      chunkSize <= 0 -> SplitData data chunkSize = Ret [data])
  /\ (forall chunkSize, 0 < chunkSize -> SplitData [] chunkSize = Ret []).
Proof.
  split; intros; unfold SplitData.
  - replace (chunkSize <=? 0) with true by Zbool_true.
    reflexivity.
  - replace (chunkSize <=? 0) with false by Zbool_false.
    reflexivity.
Qed.

Lemma SplitData_edge_cases_witness :
  SplitData digits 0 = Ret [digits] /\ SplitData [] 3 = Ret [].
Proof.
  split.
  - apply (proj1 SplitData_edge_cases); lia.
  - apply (proj2 SplitData_edge_cases); lia.
Defined.

(** C3 as stated fails: with chunk size 1 the empty input yields no
    segment, not one empty segment. *)
Lemma SplitData_empty_no_segment :
  SplitData [] 1 = Ret [] /\ SplitData [] 1 <> Ret [[]].
Proof. split; [reflexivity | discriminate]. Qed.

(** C4. For every non-empty [data] and every [chunkSize > 0], SplitData
    returns the contiguous slices of [data] in order: chunk [k] is
    [data[k*chunkSize:]] cut to [chunkSize] bytes, the chunks concatenate to
    [data], every chunk but the last has exactly [chunkSize] bytes, and the
    last has between 1 and [chunkSize]. On "0123456789" with chunk size 3 it
    returns "012", "345", "678", "9", of sizes 3, 3, 3, 1. *)
Theorem SplitData_chunks :
  (forall data chunkSize,
      data <> [] -> 0 < chunkSize <= max_int -> allocated data ->
      exists chunks,
        SplitData data chunkSize = Ret chunks
        /\ chunks <> []
        /\ List.concat chunks = data
        /\ (forall k, (k < List.length chunks)%nat ->
              nth k chunks []
              = firstn (Z.to_nat chunkSize)
                  (skipn (k * Z.to_nat chunkSize) data))
        /\ (forall k, (S k < List.length chunks)%nat ->
              len (nth k chunks []) = chunkSize)
        /\ 1 <= len (last chunks []) <= chunkSize)
  /\ SplitData digits 3
     = Ret (map list_byte_of_string ["012"; "345"; "678"; "9"]%string)
  /\ map len (map list_byte_of_string ["012"; "345"; "678"; "9"]%string)
     = [3; 3; 3; 1].
Proof.
  split; [|split; reflexivity].
  intros data chunkSize Hne Hcs Hdata.
  destruct (SplitData_spec data chunkSize Hcs Hdata)
    as (chunks & Hret & Hcat & Hnil & Hsz & Hnth).
  assert (Hchunks : chunks <> []) by (intros H; apply Hne, Hnil, H).
  exists chunks. repeat split; auto.
  - apply sizes_ok_inner, Hsz.
  - apply (sizes_ok_last _ _ Hsz Hchunks).
  - apply (sizes_ok_last _ _ Hsz Hchunks).
Qed.

Lemma SplitData_chunks_witness :
  exists chunks,
    SplitData digits 3 = Ret chunks
    /\ chunks <> []
    /\ List.concat chunks = digits
    /\ (forall k, (k < List.length chunks)%nat ->
          nth k chunks []
          = firstn (Z.to_nat 3) (skipn (k * Z.to_nat 3) digits))
    /\ (forall k, (S k < List.length chunks)%nat ->
          len (nth k chunks []) = 3)
    /\ 1 <= len (last chunks []) <= 3.
Proof.
  apply (proj1 SplitData_chunks).
  - discriminate.
  - unfold max_int; lia.
  - unfold allocated, maxAlloc, len; simpl; lia.
Defined.

End SplitJoin.

(* ================================================================= *)
(** ** Hexadecimal identifiers *)

Module Identifiers.
Import types utils GoFacts Props.

Lemma fromHexChar_is_hex (c : ascii) :
  is_hex_char c = true <-> hex.fromHexChar c <> None.
Proof.
  unfold is_hex_char, hex.fromHexChar.
  destruct ((48 <=? N_of_ascii c) && (N_of_ascii c <=? 57))%N;
    [simpl; split; [discriminate | reflexivity]|].
  destruct ((97 <=? N_of_ascii c) && (N_of_ascii c <=? 102))%N;
    [simpl; split; [discriminate | reflexivity]|].
  destruct ((65 <=? N_of_ascii c) && (N_of_ascii c <=? 70))%N;
    simpl; split; try discriminate; try reflexivity; congruence.
Qed.

(** Induction on strings two characters at a time, as DecodeString reads
    them. *)
Lemma string_pair_ind (P : string -> Prop) :
  P EmptyString ->
  (forall c, P (String c EmptyString)) ->
  (forall c d s, P s -> P (String c (String d s))) ->
  forall s, P s.
Proof.
  intros H0 H1 H2.
  assert (H : forall s, P s /\ forall c, P (String c s)).
  { induction s as [|d s [IHs IHc]]; split; auto. }
  intros s. apply H.
Qed.

Lemma DecodeString_step (p q : ascii) (rest : string) :
  hex.DecodeString (String p (String q rest))
  = match hex.fromHexChar p, hex.fromHexChar q with
    | None, _ => ([], Some (hex_InvalidByteError p))
    | Some _, None => ([], Some (hex_InvalidByteError q))
    | Some a, Some b =>
        let (out, err) := hex.DecodeString rest in
        (hex.byte_of_N (N.lor (N.shiftl a 4) b) :: out, err)
    end.
Proof. reflexivity. Qed.

(** DecodeString reports no error exactly on an even number of hexadecimal
    digits. *)
Lemma DecodeString_ok_iff (s : string) :
  snd (hex.DecodeString s) = None
  <-> Nat.even (String.length s) = true /\ is_hex_string s = true.
Proof.
  induction s as [|c|c d s IH] using string_pair_ind.
  - simpl. tauto.
  - simpl. destruct (hex.fromHexChar c); simpl; split;
      try discriminate; intros [H _]; discriminate.
  - rewrite DecodeString_step.
    change (is_hex_string (String c (String d s)))
      with (is_hex_char c && (is_hex_char d && is_hex_string s)).
    change (Nat.even (String.length (String c (String d s))))
      with (Nat.even (String.length s)).
    pose proof (fromHexChar_is_hex c) as Hc.
    pose proof (fromHexChar_is_hex d) as Hd.
    destruct (hex.fromHexChar c) as [a|].
    2:{ destruct (is_hex_char c); [exfalso; apply Hc; auto|].
        simpl. split; [discriminate | intros [_ H]; discriminate]. }
    destruct (hex.fromHexChar d) as [b|].
    2:{ destruct (is_hex_char d); [exfalso; apply Hd; auto|].
        rewrite andb_false_r. simpl.
        split; [discriminate | intros [_ H]; discriminate]. }
    replace (is_hex_char c) with true
      by (symmetry; apply Hc; discriminate).
    replace (is_hex_char d) with true
      by (symmetry; apply Hd; discriminate).
    simpl andb. destruct (hex.DecodeString s) as [out err]. exact IH.
Qed.

Lemma hexdigit_is_hex (v : byte) :
  is_hex_char (hex.hexdigit (N.shiftr (Byte.to_N v) 4)) = true
  /\ is_hex_char (hex.hexdigit (N.land (Byte.to_N v) 15)) = true.
Proof. destruct v; split; reflexivity. Qed.

Lemma hexdigit_decodes (v : byte) :
  exists a b,
    hex.fromHexChar (hex.hexdigit (N.shiftr (Byte.to_N v) 4)) = Some a
    /\ hex.fromHexChar (hex.hexdigit (N.land (Byte.to_N v) 15)) = Some b
    /\ hex.byte_of_N (N.lor (N.shiftl a 4) b) = v.
Proof.
  destruct v; eexists; eexists;
    (split; [reflexivity | split; reflexivity]).
Qed.

Lemma EncodeToString_length (src : list byte) :
  String.length (hex.EncodeToString src) = (2 * List.length src)%nat.
Proof. induction src as [|v rest IH]; simpl; [reflexivity | lia]. Qed.

Lemma EncodeToString_is_hex (src : list byte) :
  is_hex_string (hex.EncodeToString src) = true.
Proof.
  induction src as [|v rest IH]; [reflexivity|].
  destruct (hexdigit_is_hex v) as [Hhi Hlo].
  unfold is_hex_string in *. cbn [hex.EncodeToString all_chars].
  now rewrite Hhi, Hlo, IH.
Qed.

(** Decoding undoes encoding, so the encoding is injective. *)
Lemma DecodeString_EncodeToString (src : list byte) :
  hex.DecodeString (hex.EncodeToString src) = (src, None).
Proof.
  induction src as [|v rest IH]; [reflexivity|].
  destruct (hexdigit_decodes v) as (a & b & Ha & Hb & Hv).
  cbn [hex.EncodeToString].
  rewrite DecodeString_step, Ha, Hb, IH, Hv. reflexivity.
Qed.

Lemma EncodeToString_inj (a b : list byte) :
  hex.EncodeToString a = hex.EncodeToString b -> a = b.
Proof.
  intros H.
  pose proof (DecodeString_EncodeToString a) as Ha.
  rewrite H, DecodeString_EncodeToString in Ha. congruence.
Qed.

(** The model of SHA-256 on the standard's known answers (the empty
    message, "abc", and a message of two blocks). *)
Example Sum256_known_answers :
  hex.EncodeToString (sha256.Sum256 [])
  = "e3b0c44298fc1c149afbf4c8996fb92427ae41e4649b934ca495991b7852b855"%string
  /\ hex.EncodeToString (sha256.Sum256 (list_byte_of_string "abc"))
     = "ba7816bf8f01cfea414140de5dae2223b00361a396177a9cb410ff61f20015ad"%string
  /\ hex.EncodeToString
       (sha256.Sum256
          (list_byte_of_string
             "abcdbcdecdefdefgefghfghighijhijkijkljklmklmnlmnomnopnopq"))
     = "248d6a61d20638b8e5c026930c3e6039a33ce45964ff2167f6ecedd419db06c1"%string.
Proof. repeat split; vm_compute; reflexivity. Qed.

Lemma Sum256_length (data : list byte) :
  len (sha256.Sum256 data) = sha256.Size.
Proof.
  unfold sha256.Sum256, len.
  set (s := sha256.blocks _ _ _).
  rewrite length_map. cbn [flat_map].
  rewrite !length_app. unfold sha256.be_bytes.
  rewrite !length_map, !length_rev, !length_seq. reflexivity.
Qed.

Lemma ValidateFileID_iff (fileID : string) :
  ValidateFileID fileID = true
  <-> String.length fileID = 64%nat /\ is_hex_string fileID = true.
Proof.
  unfold ValidateFileID, strlen.
  pose proof (DecodeString_ok_iff fileID) as Hdec.
  destruct (Z.of_nat (String.length fileID) =? 64) eqn:E; simpl.
  - apply Z.eqb_eq in E.
    assert (Hlen : String.length fileID = 64%nat) by lia.
    rewrite Hlen in Hdec.
    destruct (hex.DecodeString fileID) as [out [err|]]; simpl in Hdec.
    + split; [discriminate|]. intros [_ H].
      assert (Some err = None) by (apply Hdec; split; [reflexivity | exact H]).
      discriminate.
    + split; [|reflexivity]. intros _. split; [exact Hlen|].
      apply Hdec. reflexivity.
  - apply Z.eqb_neq in E. split; [discriminate|]. intros [H _]. lia.
Qed.

Lemma EncodeToString_Sum256_id (data : list byte) :
  is_digest_id (hex.EncodeToString (sha256.Sum256 data)).
Proof.
  pose proof (Sum256_length data) as Hlen. unfold sha256.Size in Hlen.
  unfold is_digest_id. split; [|split].
  - rewrite EncodeToString_length. unfold len in Hlen. lia.
  - apply EncodeToString_is_hex.
  - exists (sha256.Sum256 data). auto.
Qed.

Lemma GenerateFileID_eq (name : string) (content : list byte) :
  GenerateFileID name content
  = hex.EncodeToString (sha256.Sum256 (list_byte_of_string name ++ content)).
Proof. reflexivity. Qed.

Lemma GenerateChunkID_eq (fileID : string) (index : Z)
    (content : list byte) :
  GenerateChunkID fileID index content
  = hex.EncodeToString
      (sha256.Sum256
         (list_byte_of_string fileID ++ [byte_of_int index] ++ content)).
Proof.
  unfold GenerateChunkID, sha256.Sum, sha256.Write, sha256.New.
  cbn [sha256.written]. rewrite !app_nil_l, <- app_assoc. reflexivity.
Qed.

Lemma CalculateHash_eq (data : list byte) :
  CalculateHash data = hex.EncodeToString (sha256.Sum256 data).
Proof. reflexivity. Qed.

(** C8. For every name and content [GenerateFileID name content] is a
    64-character hexadecimal string, the hex encoding of a 256-bit digest,
    and so is [CalculateHash data] for every data; each satisfies
    ValidateFileID, which accepts a string exactly when it is 64 characters
    of hexadecimal. *)
Theorem identifiers_validate :
  (forall name content,
      is_digest_id (GenerateFileID name content)
      /\ ValidateFileID (GenerateFileID name content) = true)
  /\ (forall data,
        is_digest_id (CalculateHash data)
        /\ ValidateFileID (CalculateHash data) = true)
  /\ (forall fileID,
        ValidateFileID fileID = true
        <-> String.length fileID = 64%nat /\ is_hex_string fileID = true).
Proof.
  assert (H : forall data,
             is_digest_id (hex.EncodeToString (sha256.Sum256 data))
             /\ ValidateFileID (hex.EncodeToString (sha256.Sum256 data))
                = true).
  { intros data. pose proof (EncodeToString_Sum256_id data) as Hid.
    split; [exact Hid|]. apply ValidateFileID_iff.
    destruct Hid as (H1 & H2 & _). auto. }
  split; [|split].
  - intros name content. rewrite GenerateFileID_eq. apply H.
  - intros data. rewrite CalculateHash_eq. apply H.
  - apply ValidateFileID_iff.
Qed.

(** The identifiers of the package's own tests. *)
Example GenerateFileID_test :
  GenerateFileID "test.txt" (list_byte_of_string "test content")
  = "101684cf8a01470f305b7d6c3258d7e5bfcc3575af1e8e80a60e17af20a92305"%string.
Proof. vm_compute. reflexivity. Qed.

Example GenerateChunkID_test :
  GenerateChunkID "test-file-id" 0 (list_byte_of_string "chunk content")
  = "a744afca9191775cf741596fc7c7750c8a0e3fa5996e881518f14e75f1a64d7f"%string
  /\ GenerateChunkID "test-file-id" 1 (list_byte_of_string "chunk content")
     = "2f06da19899ad60c0293763b699d49730344c8a0df738058e8e07238497b3ff6"%string.
Proof. split; vm_compute; reflexivity. Qed.

Example CalculateHash_test :
  CalculateHash (list_byte_of_string "test data")
  = "916f0027a575074ce72a331777c3478d6513f786a591bd892da1a577bf2335f9"%string.
Proof. vm_compute. reflexivity. Qed.

Lemma byte_of_int_value (i : Z) :
  0 <= i < 256 -> Z.of_N (Byte.to_N (byte_of_int i)) = i.
Proof.
  intros Hi. unfold byte_of_int. rewrite Z.mod_small by lia.
  destruct (Byte.of_N (Z.to_N i)) as [b|] eqn:E.
  - apply Byte.to_of_N in E. lia.
  - apply Byte.of_N_None_iff in E. lia.
Qed.

Lemma GenerateFileID_same_iff (name : string) (content : list byte)
    (name' : string) (content' : list byte) :
  GenerateFileID name content = GenerateFileID name' content'
  <-> sha256.Sum256 (list_byte_of_string name ++ content)
      = sha256.Sum256 (list_byte_of_string name' ++ content').
Proof.
  rewrite !GenerateFileID_eq.
  split; [apply EncodeToString_inj | congruence].
Qed.

Lemma GenerateChunkID_same_iff (fileID : string) (index : Z)
    (content : list byte) (fileID' : string) (index' : Z)
    (content' : list byte) :
  GenerateChunkID fileID index content
  = GenerateChunkID fileID' index' content'
  <-> sha256.Sum256
        (list_byte_of_string fileID ++ [byte_of_int index] ++ content)
      = sha256.Sum256
          (list_byte_of_string fileID' ++ [byte_of_int index'] ++ content').
Proof.
  rewrite !GenerateChunkID_eq.
  split; [apply EncodeToString_inj | congruence].
Qed.

(** Only the low eight bits of the chunk index reach the hash. *)
Lemma GenerateChunkID_index_low_byte (fileID : string) (index : Z)
    (content : list byte) :
  GenerateChunkID fileID (index + 256) content
  = GenerateChunkID fileID index content.
Proof.
  rewrite !GenerateChunkID_eq. unfold byte_of_int.
  replace ((index + 256) mod 256) with (index mod 256); [reflexivity|].
  replace (index + 256) with (index + 1 * 256) by lia.
  now rewrite Z.mod_add by lia.
Qed.

(** C2, as the code has it. Both functions are deterministic. Each
    identifier is the hex encoding of the SHA-256 digest of the inputs
    written one after the other with nothing between them: the name, then
    the content, for GenerateFileID; the file id, then the index as one
    byte, for an index from 0 to 255, then the content, for GenerateChunkID.
    So inputs that concatenate to the same bytes share an identifier, and
    two calls give the same identifier exactly when those digests are
    equal, different identifiers whenever they differ. *)
Theorem identifiers_by_digest :
  (forall name content name' content',
      name = name' -> content = content' ->
      GenerateFileID name content = GenerateFileID name' content')
  /\ (forall fileID index content fileID' index' content',
        fileID = fileID' -> index = index' -> content = content' ->
        GenerateChunkID fileID index content
        = GenerateChunkID fileID' index' content')
  /\ (forall name content,
        GenerateFileID name content
        = hex.EncodeToString
            (sha256.Sum256 (list_byte_of_string name ++ content)))
  /\ (forall fileID index content,
        0 <= index < 256 ->
        exists b,
          Z.of_N (Byte.to_N b) = index
          /\ GenerateChunkID fileID index content
             = hex.EncodeToString
                 (sha256.Sum256
                    (list_byte_of_string fileID ++ [b] ++ content)))
  /\ (forall name content name' content',
        list_byte_of_string name ++ content
        = list_byte_of_string name' ++ content' ->
        GenerateFileID name content = GenerateFileID name' content')
  /\ (forall name content name' content',
        GenerateFileID name content = GenerateFileID name' content'
        <-> sha256.Sum256 (list_byte_of_string name ++ content)
            = sha256.Sum256 (list_byte_of_string name' ++ content'))
  /\ (forall fileID index content fileID' index' content',
        0 <= index < 256 -> 0 <= index' < 256 ->
        Z.of_N (Byte.to_N (byte_of_int index)) = index
        /\ Z.of_N (Byte.to_N (byte_of_int index')) = index'
        /\ (GenerateChunkID fileID index content
            = GenerateChunkID fileID' index' content'
            <-> sha256.Sum256
                  (list_byte_of_string fileID ++ [byte_of_int index]
                   ++ content)
                = sha256.Sum256
                    (list_byte_of_string fileID' ++ [byte_of_int index']
                     ++ content'))).
Proof.
  split; [|split; [|split; [|split; [|split; [|split]]]]].
  - intros; subst; reflexivity.
  - intros; subst; reflexivity.
  - apply GenerateFileID_eq.
  - intros fileID index content Hi. exists (byte_of_int index).
    split; [apply byte_of_int_value, Hi | apply GenerateChunkID_eq].
  - intros name content name' content' Hcat.
    rewrite !GenerateFileID_eq. now rewrite Hcat.
  - apply GenerateFileID_same_iff.
  - intros fileID index content fileID' index' content' Hi Hi'.
    split; [apply byte_of_int_value, Hi|].
    split; [apply byte_of_int_value, Hi'|].
    apply GenerateChunkID_same_iff.
Qed.

Lemma identifiers_by_digest_witness :
  (exists b,
      Z.of_N (Byte.to_N b) = 1
      /\ GenerateChunkID "test-file-id" 1
           (list_byte_of_string "chunk content")
         = hex.EncodeToString
             (sha256.Sum256
                (list_byte_of_string "test-file-id" ++ [b]
                 ++ list_byte_of_string "chunk content")))
  /\ GenerateFileID "ab" (list_byte_of_string "c")
     = GenerateFileID "a" (list_byte_of_string "bc")
  /\ Z.of_N (Byte.to_N (byte_of_int 0)) = 0
  /\ Z.of_N (Byte.to_N (byte_of_int 1)) = 1
  /\ (GenerateChunkID "test-file-id" 0 (list_byte_of_string "chunk content")
      = GenerateChunkID "test-file-id" 1
          (list_byte_of_string "chunk content")
      <-> sha256.Sum256
            (list_byte_of_string "test-file-id" ++ [byte_of_int 0]
             ++ list_byte_of_string "chunk content")
          = sha256.Sum256
              (list_byte_of_string "test-file-id" ++ [byte_of_int 1]
               ++ list_byte_of_string "chunk content")).
Proof.
  split; [|split].
  - apply (proj1 (proj2 (proj2 (proj2 identifiers_by_digest)))). lia.
  - apply (proj1 (proj2 (proj2 (proj2 (proj2 identifiers_by_digest))))).
    reflexivity.
  - apply (proj2 (proj2 (proj2 (proj2 (proj2 (proj2
             identifiers_by_digest)))))); lia.
Defined.

(** C2 as stated fails: the identifiers are not injective on their inputs.
    The name "ab" with content "c" and the name "a" with content "bc" are
    different inputs with the same file identifier. *)
Lemma GenerateFileID_not_injective :
  ("ab"%string, list_byte_of_string "c")
  <> ("a"%string, list_byte_of_string "bc")
  /\ GenerateFileID "ab" (list_byte_of_string "c")
     = GenerateFileID "a" (list_byte_of_string "bc").
Proof.
  split; [discriminate|].
  rewrite !GenerateFileID_eq. reflexivity.
Qed.

End Identifiers.

(* ================================================================= *)
(** ** The sharded storage path *)

Module Storage.
Import utils GoFacts.

Section WithJoin.
Variable filepath_Join : list string -> string.

Lemma GetStoragePath_long (baseDir : string) (c d : ascii) (rest : string) :
  GetStoragePath filepath_Join baseDir (String c (String d rest))
  = Ret (filepath_Join
           [baseDir; String c (String d EmptyString);
            String c (String d rest)]).
Proof.
  unfold GetStoragePath, slice_string, strlen.
  replace (2 <=? Z.of_nat (String.length (String c (String d rest))))
    with true by (symmetry; apply Z.leb_le; simpl String.length; lia).
  simpl. destruct rest; reflexivity.
Qed.

Lemma GetStoragePath_short (baseDir fileID : string) :
  (String.length fileID < 2)%nat ->
  GetStoragePath filepath_Join baseDir fileID = Panic.
Proof.
  intros H. unfold GetStoragePath, slice_string, strlen.
  replace (2 <=? Z.of_nat (String.length fileID))
    with false by Zbool_false.
  reflexivity.
Qed.

(** C9. For every [baseDir] and every [id] of at least two characters,
    [GetStoragePath baseDir id] is [baseDir] joined with the subdirectory
    made of the first two characters of [id], joined with [id] itself. *)
Theorem GetStoragePath_sharded (baseDir id : string) :
  (2 <= String.length id)%nat ->
  exists c d rest,
    id = String c (String d rest)
    /\ GetStoragePath filepath_Join baseDir id
       = Ret (filepath_Join [baseDir; String c (String d EmptyString); id]).
Proof.
  intros H.
  destruct id as [|c [|d rest]]; simpl in H; try lia.
  exists c, d, rest. split; [reflexivity|]. apply GetStoragePath_long.
Qed.

(** C10. GetStoragePath is partial: on a [fileID] of fewer than two
    characters, the empty string among them, the slice [fileID[:2]] panics
    and no path is returned; it returns a path exactly when
    [len(fileID) >= 2]. *)
Theorem GetStoragePath_partial (baseDir : string) :
  GetStoragePath filepath_Join baseDir EmptyString = Panic
  /\ forall fileID,
       (GetStoragePath filepath_Join baseDir fileID = Panic
        <-> (String.length fileID < 2)%nat)
       /\ ((exists path,
              GetStoragePath filepath_Join baseDir fileID = Ret path)
           <-> (2 <= String.length fileID)%nat).
Proof.
  split; [apply GetStoragePath_short; simpl; lia|].
  intros fileID.
  destruct (Nat.lt_ge_cases (String.length fileID) 2) as [Hlt|Hge].
  - pose proof (GetStoragePath_short baseDir fileID Hlt) as Hp.
    rewrite Hp. split; split; try lia; auto.
    intros [path Hpath]. discriminate.
  - destruct fileID as [|c [|d rest]]; simpl in Hge; try lia.
    rewrite GetStoragePath_long.
    split; split; try discriminate; simpl; try lia; eauto.
Qed.

End WithJoin.

Lemma GetStoragePath_sharded_witness :
  exists c d rest,
    "abcdef1234567890"%string = String c (String d rest)
    /\ GetStoragePath Instances.slash_Join "/storage" "abcdef1234567890"
       = Ret (Instances.slash_Join
                ["/storage"%string; String c (String d EmptyString);
                 "abcdef1234567890"%string]).
Proof.
  apply GetStoragePath_sharded. simpl. lia.
Defined.

(** The package's own test, with slashes for [filepath.Join]. *)
Example GetStoragePath_test :
  GetStoragePath Instances.slash_Join "/storage" "abcdef1234567890"
  = Ret "/storage/ab/abcdef1234567890"%string.
Proof. reflexivity. Qed.

End Storage.

(* ================================================================= *)
(** ** Encrypt and Decrypt *)

Module Sealing.
Import crypto GoFacts Instances.

Section WithGCM.
Context {G : cipher.GCM}.

(** Past the key-length check nothing fails before the nonce is read. *)
Lemma Encrypt_with_key (rand_Reader : rand.Reader) (data : list byte)
    (key : EncryptionKey) :
  len key = 32 ->
  Encrypt rand_Reader data key
  = match io.ReadFull rand_Reader 12 with
    | ((_, Some err), rand_Reader') => Ret (([], Some err), rand_Reader')
    | ((nonce, None), rand_Reader') =>
        ciphertext <- cipher.Seal {| cipher.aead_key := key |}
                        nonce nonce data [] ;;
        Ret ((ciphertext, None), rand_Reader')
    end.
Proof.
  intros Hkey. unfold Encrypt, aes.NewCipher. rewrite Hkey. reflexivity.
Qed.

Lemma Decrypt_with_key (ciphertext : list byte) (key : EncryptionKey) :
  len key = 32 ->
  Decrypt ciphertext key
  = if len ciphertext <? 12 then Ret ([], Some errTooShort)
    else
      nonce <- slice ciphertext 0 12 ;;
      ciphertext' <- slice ciphertext 12 (len ciphertext) ;;
      opened <- cipher.Open {| cipher.aead_key := key |}
                  [] nonce ciphertext' [] ;;
      match opened with
      | (_, Some err) => Ret ([], Some err)
      | (plaintext, None) => Ret (plaintext, None)
      end.
Proof.
  intros Hkey. unfold Decrypt, aes.NewCipher. rewrite Hkey. reflexivity.
Qed.

Lemma Encrypt_bad_key (rand_Reader : rand.Reader) (data : list byte)
    (key : EncryptionKey) :
  len key <> 32 ->
  Encrypt rand_Reader data key = Ret (([], Some errKeyLength), rand_Reader).
Proof.
  intros Hkey. unfold Encrypt.
  replace (len key =? 32) with false by Zbool_false.
  reflexivity.
Qed.

Lemma Decrypt_bad_key (ciphertext : list byte) (key : EncryptionKey) :
  len key <> 32 -> Decrypt ciphertext key = Ret ([], Some errKeyLength).
Proof.
  intros Hkey. unfold Decrypt.
  replace (len key =? 32) with false by Zbool_false.
  reflexivity.
Qed.

Lemma len_firstn_le {A : Type} (n : Z) (s : list A) :
  0 <= n <= len s -> len (firstn (Z.to_nat n) s) = n.
Proof. unfold len. intros H. rewrite length_firstn. lia. Qed.

Lemma firstn_length_app {A : Type} (s t : list A) :
  firstn (List.length s) (s ++ t) = s.
Proof. induction s as [|x s IH]; simpl; [reflexivity | now rewrite IH]. Qed.

Lemma skipn_length_app {A : Type} (s t : list A) :
  skipn (List.length s) (s ++ t) = t.
Proof. induction s as [|x s IH]; simpl; [reflexivity | exact IH]. Qed.

(** The two slices Decrypt takes of a blob that holds a nonce. *)
Lemma Decrypt_slices (ciphertext : list byte) :
  12 <= len ciphertext ->
  slice ciphertext 0 12 = Ret (firstn 12 ciphertext)
  /\ slice ciphertext 12 (len ciphertext) = Ret (skipn 12 ciphertext)
  /\ len (firstn 12 ciphertext) = 12.
Proof.
  intros H. rewrite !slice_ok by lia.
  change (Z.to_nat (12 - 0)) with 12%nat.
  change (Z.to_nat 0) with 0%nat. change (Z.to_nat 12) with 12%nat.
  split; [reflexivity|]. split.
  - f_equal. apply firstn_all2. rewrite length_skipn. unfold len. lia.
  - apply (len_firstn_le 12). lia.
Qed.

(** What Decrypt does with a 32-byte key: a blob shorter than a nonce is
    refused; any other is split after 12 bytes and handed to GCM, whose
    verdict is returned as it is. *)
Lemma Decrypt_cases (ciphertext : list byte) (key : EncryptionKey) :
  len key = 32 ->
  Decrypt ciphertext key
  = if len ciphertext <? 12 then Ret ([], Some errTooShort)
    else
      match cipher.gcm_open key (firstn 12 ciphertext)
              (skipn 12 ciphertext) [] with
      | Some plaintext => Ret (plaintext, None)
      | None => Ret ([], Some cipher_errOpen)
      end.
Proof.
  intros Hkey. rewrite (Decrypt_with_key _ _ Hkey).
  destruct (len ciphertext <? 12) eqn:E; [reflexivity|].
  apply Z.ltb_ge in E.
  destruct (Decrypt_slices ciphertext E) as (Hn & Hc & Hlen).
  rewrite Hn, Hc. cbn [bind]. unfold cipher.Open, cipher.NonceSize.
  rewrite Hlen. cbn [Z.eqb Pos.eqb negb cipher.aead_key].
  destruct (cipher.gcm_open key (firstn 12 ciphertext)
              (skipn 12 ciphertext) []); reflexivity.
Qed.

(** Decrypt always returns: it neither panics nor runs on. *)
Lemma Decrypt_returns (ciphertext : list byte) (key : EncryptionKey) :
  exists result, Decrypt ciphertext key = Ret result.
Proof.
  destruct (Z.eq_dec (len key) 32) as [Hkey|Hkey].
  - rewrite (Decrypt_cases _ _ Hkey).
    destruct (len ciphertext <? 12); [eauto|].
    destruct (cipher.gcm_open _ _ _ _); eauto.
  - rewrite (Decrypt_bad_key _ _ Hkey). eauto.
Qed.

(** A blob shorter than the nonce is refused. *)
Lemma Decrypt_too_short (ciphertext : list byte) (key : EncryptionKey) :
  len key = 32 -> len ciphertext < 12 ->
  Decrypt ciphertext key = Ret ([], Some errTooShort).
Proof.
  intros Hkey Hshort. rewrite (Decrypt_cases _ _ Hkey).
  replace (len ciphertext <? 12) with true
    by Zbool_true.
  reflexivity.
Qed.

(** Whenever Decrypt returns an error it returns no plaintext with it. *)
Lemma Decrypt_error_no_plaintext (ciphertext : list byte)
    (key : EncryptionKey) (out : list byte) (err : error) :
  Decrypt ciphertext key = Ret (out, Some err) -> out = [].
Proof.
  destruct (Z.eq_dec (len key) 32) as [Hkey|Hkey].
  - rewrite (Decrypt_cases _ _ Hkey).
    destruct (len ciphertext <? 12); [congruence|].
    destruct (cipher.gcm_open _ _ _ _); congruence.
  - rewrite (Decrypt_bad_key _ _ Hkey). congruence.
Qed.

(** Whenever GCM refuses the blob, so does Decrypt; and what Decrypt
    returns as plaintext is what GCM opened, unchanged. *)
Lemma Decrypt_follows_gcm (ciphertext : list byte) (key : EncryptionKey) :
  len key = 32 -> 12 <= len ciphertext ->
  (cipher.gcm_open key (firstn 12 ciphertext) (skipn 12 ciphertext) [] = None
   -> Decrypt ciphertext key = Ret ([], Some cipher_errOpen))
  /\ (forall plaintext,
        Decrypt ciphertext key = Ret (plaintext, None)
        <-> cipher.gcm_open key (firstn 12 ciphertext)
              (skipn 12 ciphertext) [] = Some plaintext).
Proof.
  intros Hkey Hlen. rewrite (Decrypt_cases _ _ Hkey).
  replace (len ciphertext <? 12) with false
    by Zbool_false.
  destruct (cipher.gcm_open _ _ _ _) as [p|].
  - split; [discriminate|]. intros plaintext. split; congruence.
  - split; [reflexivity|]. intros plaintext. split; discriminate.
Qed.

(** C6. Encrypt and Decrypt both fail with the key-length error, and
    return no output, whenever the key is not exactly 32 bytes; and neither
    reports that error for a key of 32 bytes. *)
Theorem key_length_checked (rand_Reader : rand.Reader)
    (data ciphertext : list byte) (key : EncryptionKey) :
  (len key <> 32 ->
   Encrypt rand_Reader data key = Ret (([], Some errKeyLength), rand_Reader)
   /\ Decrypt ciphertext key = Ret ([], Some errKeyLength))
  /\ (len key = 32 ->
      (forall out rand_Reader',
          Encrypt rand_Reader data key
          <> Ret ((out, Some errKeyLength), rand_Reader'))
      /\ (forall out,
            Decrypt ciphertext key <> Ret (out, Some errKeyLength))).
Proof.
  split.
  - intros Hkey. split; [now apply Encrypt_bad_key | now apply Decrypt_bad_key].
  - intros Hkey. split.
    + intros out r'. rewrite (Encrypt_with_key _ _ _ Hkey).
      unfold io.ReadFull.
      destruct (12 <=? len rand_Reader).
      * destruct (cipher.Seal _ _ _ _ _); cbn [bind]; congruence.
      * destruct (len rand_Reader =? 0); discriminate.
    + intros out. rewrite (Decrypt_cases _ _ Hkey).
      destruct (len ciphertext <? 12); [discriminate|].
      destruct (cipher.gcm_open _ _ _ _); discriminate.
Qed.

Context {Gok : cipher.GCM_correct G}.


End WithGCM.

(** The runnable GCM of [Instances] meets [GCM_correct]. *)
Lemma tag_length (key nonce data msg : list byte) :
  List.length (tag key nonce data msg) = 16%nat.
Proof.
  unfold Instances.tag. rewrite length_firstn.
  pose proof (Identifiers.Sum256_length (key ++ nonce ++ data ++ msg)) as H.
  unfold len, sha256.Size in H. lia.
Qed.

Lemma tagged_gcm_correct : cipher.GCM_correct tagged_gcm.
Proof.
  split.
  - intros key nonce plaintext data _ _ Hsize. simpl.
    replace (len plaintext >? cipher.gcm_max_plaintext) with false;
      [eauto|].
    symmetry. rewrite Z.gtb_ltb. apply Z.ltb_ge. exact Hsize.
  - intros key nonce plaintext data sealed _ _. simpl.
    destruct (len plaintext >? cipher.gcm_max_plaintext); [discriminate|].
    intros H. injection H as <-.
    pose proof (tag_length key nonce data plaintext) as Htag.
    assert (Hlen : len (plaintext ++ tag key nonce data plaintext)
                   = len plaintext + 16)
      by (rewrite len_app; unfold len; lia).
    rewrite Hlen.
    replace (len plaintext + 16 <? 16) with false
      by (symmetry; apply Z.ltb_ge; pose proof (len_nonneg plaintext); lia).
    replace (Z.to_nat (len plaintext + 16 - 16))
      with (List.length plaintext) by (unfold len; lia).
    rewrite firstn_length_app, skipn_length_app.
    destruct (bytes_eq_dec _ _) as [_|Hne];
      [reflexivity | congruence].
Qed.

Lemma test_key_length : len test_key = 32.
Proof. vm_compute. reflexivity. Qed.



Lemma key_length_checked_witness :
  (Encrypt (G := tagged_gcm) test_rand digits
     digits
   = Ret (([], Some errKeyLength), test_rand)
   /\ Decrypt (G := tagged_gcm) digits digits
      = Ret ([], Some errKeyLength))
  /\ ((forall out rand_Reader',
         Encrypt (G := tagged_gcm) test_rand digits
           test_key
         <> Ret ((out, Some errKeyLength), rand_Reader'))
      /\ (forall out,
            Decrypt (G := tagged_gcm) digits test_key
            <> Ret (out, Some errKeyLength))).
Proof.
  split.
  - apply (proj1 (key_length_checked (G := tagged_gcm)
                    test_rand digits digits
                    digits)).
    unfold len. simpl. lia.
  - apply (proj2 (key_length_checked (G := tagged_gcm)
                    test_rand digits digits test_key)).
    vm_compute. reflexivity.
Defined.

(** A run: seal the ten digits, open the blob, then open it again with its
    last byte changed and with its first eleven bytes only. *)
Example seal_and_open :
  exists blob,
    Encrypt (G := tagged_gcm) test_rand digits test_key
    = Ret ((blob, None), skipn 12 test_rand)
    /\ len blob = 12 + 10 + 16
    /\ Decrypt (G := tagged_gcm) blob test_key
       = Ret (digits, None)
    /\ Decrypt (G := tagged_gcm)
         (removelast blob ++ [x00]) test_key
       = Ret ([], Some cipher_errOpen)
    /\ Decrypt (G := tagged_gcm) (firstn 11 blob) test_key
       = Ret ([], Some errTooShort).
Proof.
  eexists. split; [vm_compute; reflexivity|].
  repeat split; vm_compute; reflexivity.
Qed.

Lemma Decrypt_too_short_witness :
  Decrypt (G := tagged_gcm) digits test_key = Ret ([], Some errTooShort).
Proof.
  apply Decrypt_too_short.
  - vm_compute. reflexivity.
  - unfold len. simpl. lia.
Defined.

Lemma Decrypt_error_no_plaintext_witness :
  Decrypt (G := tagged_gcm) digits test_key = Ret ([], Some errTooShort)
  /\ @nil byte = [].
Proof.
  split; [vm_compute; reflexivity|].
  apply (Decrypt_error_no_plaintext (G := tagged_gcm)
           digits test_key [] errTooShort).
  vm_compute. reflexivity.
Defined.

Lemma Decrypt_follows_gcm_witness :
  (cipher.gcm_open (GCM := tagged_gcm) test_key
     (firstn 12 test_rand) (skipn 12 test_rand) [] = None ->
   Decrypt (G := tagged_gcm) test_rand test_key
   = Ret ([], Some cipher_errOpen))
  /\ (forall plaintext,
        Decrypt (G := tagged_gcm) test_rand test_key = Ret (plaintext, None)
        <-> cipher.gcm_open (GCM := tagged_gcm) test_key
              (firstn 12 test_rand) (skipn 12 test_rand) []
            = Some plaintext).
Proof.
  apply Decrypt_follows_gcm.
  - vm_compute. reflexivity.
  - unfold len. simpl. lia.
Defined.

End Sealing.

(* ================================================================= *)
(** ** Hashes and keys *)

Module Keys.
Import crypto GoFacts Instances.

Lemma index_nat {A : Type} (s : list A) (i : nat) (x : A) :
  nth_error s i = Some x -> index s (Z.of_nat i) = Ret x.
Proof.
  intros H. unfold index.
  replace (Z.of_nat i <? 0) with false by Zbool_false.
  now rewrite Nat2Z.id, H.
Qed.

Lemma skipn_nth_error {A : Type} (s : list A) (i : nat) :
  (i < List.length s)%nat ->
  exists x, nth_error s i = Some x /\ skipn i s = x :: skipn (S i) s.
Proof.
  revert i. induction s as [|y s IH]; intros i Hi; simpl in Hi; [lia|].
  destruct i as [|i]; [exists y; auto|].
  destruct (IH i ltac:(lia)) as (x & Hx & Hs). exists x. auto.
Qed.

(** The loop compares the two slices from its first index on. *)
Lemma VerifyHash_loop_spec (actualHash expectedHash : list byte) :
  List.length actualHash = List.length expectedHash ->
  forall n k,
    (k + n = List.length actualHash)%nat ->
    VerifyHash_loop (seq k n) actualHash expectedHash
    = Ret (if bytes_eq_dec (skipn k actualHash) (skipn k expectedHash)
           then true else false).
Proof.
  intros Hlen. induction n as [|n IH]; intros k Hk.
  - simpl. rewrite !skipn_all2 by lia.
    destruct (bytes_eq_dec [] []); congruence.
  - cbn [seq VerifyHash_loop].
    destruct (skipn_nth_error actualHash k ltac:(lia)) as (a & Ha & Hsa).
    destruct (skipn_nth_error expectedHash k ltac:(lia)) as (e & He & Hse).
    rewrite (index_nat _ _ _ Ha), (index_nat _ _ _ He). cbn [bind].
    rewrite Hsa, Hse, (IH (S k)) by lia.
    destruct (Byte.eqb a e) eqn:E; cbn [negb].
    + apply Byte.byte_dec_bl in E. subst e.
      destruct (bytes_eq_dec (skipn (S k) actualHash)
                  (skipn (S k) expectedHash)) as [Heq|Hne];
        destruct (bytes_eq_dec _ _) as [Heq'|Hne']; try reflexivity;
        congruence.
    + destruct (bytes_eq_dec _ _) as [Heq|Hne]; [|reflexivity].
      injection Heq as Hae _. subst e.
      rewrite (Byte.byte_dec_lb eq_refl) in E. discriminate.
Qed.

(** VerifyHash returns whether the two slices are equal. *)
Lemma VerifyHash_decides (data expectedHash : list byte) :
  VerifyHash data expectedHash
  = Ret (if bytes_eq_dec expectedHash (Hash data) then true else false).
Proof.
  unfold VerifyHash.
  destruct (len (Hash data) =? len expectedHash) eqn:E; cbn [negb].
  - apply Z.eqb_eq in E.
    assert (Hlen : List.length (Hash data) = List.length expectedHash)
      by (unfold len in E; lia).
    rewrite (VerifyHash_loop_spec _ _ Hlen _ 0%nat) by lia.
    cbn [skipn].
    destruct (bytes_eq_dec (Hash data) expectedHash) as [Heq|Hne];
      destruct (bytes_eq_dec expectedHash (Hash data)) as [Heq'|Hne'];
      congruence.
  - apply Z.eqb_neq in E.
    destruct (bytes_eq_dec expectedHash (Hash data)) as [Heq|Hne];
      [|reflexivity].
    subst expectedHash. congruence.
Qed.

(** VerifyHash never panics. It answers true exactly when the expected
    hash is the SHA-256 digest of the data, all 32 bytes of it, which is
    exactly when its hex encoding is what CalculateHash gives for the data;
    an expected hash of any other length is refused. *)
Theorem VerifyHash_iff (data expectedHash : list byte) :
  exists ok,
    VerifyHash data expectedHash = Ret ok
    /\ (ok = true <-> expectedHash = Hash data)
    /\ (ok = true
        <-> hex.EncodeToString expectedHash = types.CalculateHash data)
    /\ (len expectedHash <> 32 -> ok = false).
Proof.
  rewrite VerifyHash_decides.
  pose proof (Identifiers.Sum256_length data) as Hlen.
  unfold sha256.Size in Hlen. fold (Hash data) in Hlen.
  rewrite Identifiers.CalculateHash_eq. fold (Hash data).
  destruct (bytes_eq_dec expectedHash (Hash data)) as [Heq|Hne].
  - exists true. split; [reflexivity|]. subst expectedHash.
    split; [tauto|]. split; [tauto|]. intros H. contradiction.
  - exists false. split; [reflexivity|].
    split; [split; [discriminate | contradiction]|].
    split; [|reflexivity].
    split; [discriminate|]. intros H.
    apply Identifiers.EncodeToString_inj in H. contradiction.
Qed.

(** GenerateKey takes the next 32 bytes of the random source, or fails
    with the source. *)
Lemma GenerateKey_cases (rand_Reader : rand.Reader) :
  (32 <= len rand_Reader ->
   GenerateKey rand_Reader
   = Ret ((firstn 32 rand_Reader, None), skipn 32 rand_Reader))
  /\ (len rand_Reader < 32 ->
      exists err, GenerateKey rand_Reader = Ret (([], Some err), [])).
Proof.
  unfold GenerateKey, rand_Read, io.ReadFull.
  change (make_bytes 32) with (Ret (repeat x00 32)). cbn [bind].
  change (len (repeat x00 32)) with 32.
  split; intros H.
  - replace (32 <=? len rand_Reader) with true by Zbool_true. reflexivity.
  - replace (32 <=? len rand_Reader) with false by Zbool_false. eauto.
Qed.

Section WithGCM.
Context {G : cipher.GCM} {Gok : cipher.GCM_correct G}.

(** Sealing and opening under one 32-byte key. *)
Lemma Encrypt_then_Decrypt (rand_Reader : rand.Reader)
    (plaintext : list byte) (key : EncryptionKey) :
  len key = 32 ->
  12 <= len rand_Reader ->
  len plaintext <= cipher.gcm_max_plaintext ->
  exists sealed,
    Encrypt rand_Reader plaintext key
    = Ret ((firstn 12 rand_Reader ++ sealed, None), skipn 12 rand_Reader)
    /\ Decrypt (firstn 12 rand_Reader ++ sealed) key = Ret (plaintext, None).
Proof.
  intros Hkey Hrand Hsize.
  set (nonce := firstn 12 rand_Reader).
  assert (Hnonce : len nonce = 12)
    by (apply (Sealing.len_firstn_le 12); lia).
  destruct (cipher.gcm_seal_returns key nonce plaintext [] Hkey Hnonce Hsize)
    as [sealed Hseal].
  exists sealed. split.
  - rewrite (Sealing.Encrypt_with_key _ _ _ Hkey). unfold io.ReadFull.
    replace (12 <=? len rand_Reader) with true by Zbool_true.
    change (Z.to_nat 12) with 12%nat. fold nonce.
    unfold cipher.Seal, cipher.NonceSize. rewrite Hnonce.
    cbn [Z.eqb Pos.eqb negb cipher.aead_key]. rewrite Hseal. reflexivity.
  - rewrite (Sealing.Decrypt_cases _ _ Hkey).
    pose proof (len_nonneg sealed) as Hs.
    replace (len (nonce ++ sealed) <? 12) with false
      by (symmetry; apply Z.ltb_ge; rewrite len_app; lia).
    assert (Hl : List.length nonce = 12%nat) by (unfold len in Hnonce; lia).
    rewrite <- Hl, Sealing.firstn_length_app, Sealing.skipn_length_app.
    now rewrite (cipher.gcm_open_seal key nonce plaintext [] sealed
                   Hkey Hnonce Hseal).
Qed.

(** A key from GenerateKey is one Encrypt and Decrypt accept: with a random
    source good for 44 bytes, GenerateKey returns the first 32 as the key,
    Encrypt takes the next 12 as the nonce, and Decrypt under that key gives
    the plaintext back. *)
Theorem GenerateKey_round_trip (rand_Reader : rand.Reader)
    (plaintext : list byte) :
  44 <= len rand_Reader ->
  len plaintext <= cipher.gcm_max_plaintext ->
  exists blob,
    GenerateKey rand_Reader
    = Ret ((firstn 32 rand_Reader, None), skipn 32 rand_Reader)
    /\ len (firstn 32 rand_Reader) = 32
    /\ Encrypt (skipn 32 rand_Reader) plaintext (firstn 32 rand_Reader)
       = Ret ((blob, None), skipn 44 rand_Reader)
    /\ firstn 12 blob = firstn 12 (skipn 32 rand_Reader)
    /\ Decrypt blob (firstn 32 rand_Reader) = Ret (plaintext, None).
Proof.
  intros Hrand Hsize.
  assert (Hkey : len (firstn 32 rand_Reader) = 32)
    by (apply (Sealing.len_firstn_le 32); lia).
  assert (Hrest : 12 <= len (skipn 32 rand_Reader))
    by (unfold len in *; rewrite length_skipn; lia).
  destruct (Encrypt_then_Decrypt (skipn 32 rand_Reader) plaintext
              (firstn 32 rand_Reader) Hkey Hrest Hsize)
    as (sealed & Henc & Hdec).
  exists (firstn 12 (skipn 32 rand_Reader) ++ sealed).
  split; [apply GenerateKey_cases; lia|].
  split; [exact Hkey|].
  split; [rewrite Henc, skipn_skipn; reflexivity|].
  split; [|exact Hdec].
  assert (Hl : List.length (firstn 12 (skipn 32 rand_Reader)) = 12%nat)
    by (rewrite length_firstn; unfold len in Hrest; lia).
  rewrite <- Hl at 1. apply Sealing.firstn_length_app.
Qed.

(** A key derived from a password has 32 bytes, whatever the password, so
    what Encrypt seals under it Decrypt opens under the same password. *)
Theorem DeriveKey_round_trip (password : string) (rand_Reader : rand.Reader)
    (plaintext : list byte) :
  12 <= len rand_Reader ->
  len plaintext <= cipher.gcm_max_plaintext ->
  len (DeriveKey password) = 32
  /\ exists blob,
       Encrypt rand_Reader plaintext (DeriveKey password)
       = Ret ((blob, None), skipn 12 rand_Reader)
       /\ Decrypt blob (DeriveKey password) = Ret (plaintext, None).
Proof.
  intros Hrand Hsize.
  assert (Hkey : len (DeriveKey password) = 32)
    by apply Identifiers.Sum256_length.
  split; [exact Hkey|].
  destruct (Encrypt_then_Decrypt rand_Reader plaintext (DeriveKey password)
              Hkey Hrand Hsize) as (sealed & Henc & Hdec).
  eauto.
Qed.

(** With a 32-byte key and a plaintext GCM seals, Encrypt returns; it
    reports an error exactly when the random source cannot deliver the 12
    bytes of a nonce, and then it returns no ciphertext. *)
Theorem Encrypt_fails_iff (rand_Reader : rand.Reader) (data : list byte)
    (key : EncryptionKey) :
  len key = 32 ->
  len data <= cipher.gcm_max_plaintext ->
  exists out err rand_Reader',
    Encrypt rand_Reader data key = Ret ((out, err), rand_Reader')
    /\ (err = None <-> 12 <= len rand_Reader)
    /\ (err <> None -> out = []).
Proof.
  intros Hkey Hsize.
  destruct (Z_le_gt_dec 12 (len rand_Reader)) as [Hrand|Hrand].
  - destruct (Encrypt_then_Decrypt rand_Reader data key Hkey Hrand Hsize)
      as (sealed & Henc & _).
    do 3 eexists. split; [exact Henc|]. split; [tauto | congruence].
  - rewrite (Sealing.Encrypt_with_key _ _ _ Hkey). unfold io.ReadFull.
    replace (12 <=? len rand_Reader) with false by Zbool_false.
    do 3 eexists. split; [reflexivity|].
    split; [split; [discriminate | lia] | reflexivity].
Qed.

End WithGCM.

Definition test_rand48 : rand.Reader :=
  list_byte_of_string "0123456789abcdef0123456789abcdef0123456789abcdef".

Lemma GenerateKey_round_trip_witness :
  exists blob,
    GenerateKey test_rand48
    = Ret ((firstn 32 test_rand48, None), skipn 32 test_rand48)
    /\ len (firstn 32 test_rand48) = 32
    /\ Encrypt (G := tagged_gcm) (skipn 32 test_rand48) digits
         (firstn 32 test_rand48)
       = Ret ((blob, None), skipn 44 test_rand48)
    /\ firstn 12 blob = firstn 12 (skipn 32 test_rand48)
    /\ Decrypt (G := tagged_gcm) blob (firstn 32 test_rand48)
       = Ret (digits, None).
Proof.
  apply (@GenerateKey_round_trip tagged_gcm Sealing.tagged_gcm_correct).
  - unfold len. simpl. lia.
  - unfold cipher.gcm_max_plaintext, aes.BlockSize, len. simpl. lia.
Defined.

Lemma DeriveKey_round_trip_witness :
  len (DeriveKey "password") = 32
  /\ exists blob,
       Encrypt (G := tagged_gcm) test_rand digits (DeriveKey "password")
       = Ret ((blob, None), skipn 12 test_rand)
       /\ Decrypt (G := tagged_gcm) blob (DeriveKey "password")
          = Ret (digits, None).
Proof.
  apply (@DeriveKey_round_trip tagged_gcm Sealing.tagged_gcm_correct).
  - unfold len. simpl. lia.
  - unfold cipher.gcm_max_plaintext, aes.BlockSize, len. simpl. lia.
Defined.

Lemma Encrypt_fails_iff_witness :
  exists out err rand_Reader',
    Encrypt (G := tagged_gcm) digits digits test_key
    = Ret ((out, err), rand_Reader')
    /\ (err = None <-> 12 <= len digits)
    /\ (err <> None -> out = []).
Proof.
  apply (@Encrypt_fails_iff tagged_gcm Sealing.tagged_gcm_correct).
  - vm_compute. reflexivity.
  - unfold cipher.gcm_max_plaintext, aes.BlockSize, len. simpl. lia.
Defined.

End Keys.

(* ================================================================= *)
(** ** Chunk counts and re-splitting *)

Module Chunks.
Import utils GoFacts Props Instances.

Section Sizes.
Variable chunkSize : Z.
Hypothesis chunkSize_pos : 0 < chunkSize.

Lemma sizes_ok_tail (c : list byte) (rest : list (list byte)) :
  sizes_ok chunkSize (c :: rest) -> sizes_ok chunkSize rest.
Proof. destruct rest; simpl; [auto | tauto]. Qed.

Lemma sizes_ok_head (c : list byte) (rest : list (list byte)) :
  sizes_ok chunkSize (c :: rest) -> 1 <= len c <= chunkSize.
Proof. destruct rest; simpl; [auto | lia]. Qed.

(** The first chunk is the first [chunkSize] bytes of the whole. *)
Lemma sizes_ok_first (c : list byte) (rest : list (list byte)) :
  sizes_ok chunkSize (c :: rest) ->
  c = firstn (Z.to_nat chunkSize) (List.concat (c :: rest)).
Proof.
  intros H. cbn [List.concat]. destruct rest as [|d rest].
  - simpl in H. cbn [List.concat]. rewrite app_nil_r.
    symmetry. apply firstn_all2. unfold len in H. lia.
  - destruct H as [H _].
    replace (Z.to_nat chunkSize) with (List.length c)
      by (unfold len in H; lia).
    symmetry. apply Sealing.firstn_length_app.
Qed.

(** Chunks of the right sizes are determined by what they concatenate to. *)
Lemma sizes_ok_unique (a : list (list byte)) :
  forall b,
    sizes_ok chunkSize a -> sizes_ok chunkSize b ->
    List.concat a = List.concat b -> a = b.
Proof.
  induction a as [|c ra IH]; intros [|d rb] Ha Hb Hcat.
  - reflexivity.
  - exfalso. apply sizes_ok_head in Hb. cbn [List.concat] in Hcat.
    destruct d; [unfold len in Hb; simpl in Hb; lia | discriminate].
  - exfalso. apply sizes_ok_head in Ha. cbn [List.concat] in Hcat.
    destruct c; [unfold len in Ha; simpl in Ha; lia | discriminate].
  - assert (Hcd : c = d).
    { rewrite (sizes_ok_first c ra Ha), (sizes_ok_first d rb Hb).
      now rewrite Hcat. }
    subst d. f_equal. apply IH.
    + exact (sizes_ok_tail _ _ Ha).
    + exact (sizes_ok_tail _ _ Hb).
    + cbn [List.concat] in Hcat. exact (app_inv_head _ _ _ Hcat).
Qed.

(** How long the whole is, from the number of chunks. *)
Lemma sizes_ok_total (chunks : list (list byte)) :
  sizes_ok chunkSize chunks -> chunks <> [] ->
  chunkSize * (len chunks - 1) + 1 <= len (List.concat chunks)
  /\ len (List.concat chunks) <= chunkSize * len chunks.
Proof.
  induction chunks as [|c rest IH]; intros H Hne; [congruence|].
  cbn [List.concat]. rewrite len_app.
  destruct rest as [|d rest].
  - simpl in H. unfold len in *. simpl. lia.
  - destruct H as [Hc Hrest].
    destruct (IH Hrest ltac:(discriminate)) as [Hlo Hhi].
    unfold len in *. cbn [List.length] in *. nia.
Qed.

End Sizes.

(** SplitData returns [ceil(len(data) / chunkSize)] chunks. *)
Theorem SplitData_count (data : list byte) (chunkSize : Z) :
  0 < chunkSize <= max_int -> allocated data ->
  exists chunks,
    SplitData data chunkSize = Ret chunks
    /\ len chunks = (len data + chunkSize - 1) / chunkSize.
Proof.
  intros Hcs Hdata.
  destruct (SplitJoin.SplitData_spec data chunkSize Hcs Hdata)
    as (chunks & Hret & Hcat & Hnil & Hsz & _).
  exists chunks. split; [exact Hret|].
  destruct chunks as [|c rest].
  - assert (data = []) by (apply Hnil; reflexivity). subst data.
    unfold len. simpl. symmetry. apply Z.div_small. lia.
  - destruct (sizes_ok_total chunkSize ltac:(lia) (c :: rest) Hsz
                ltac:(discriminate)) as [Hlo Hhi].
    rewrite Hcat in Hlo, Hhi.
    apply (Z.div_unique _ _ _
             (len data + chunkSize - 1 - chunkSize * len (c :: rest)));
      lia.
Qed.

Lemma SplitData_count_witness :
  exists chunks,
    SplitData digits 3 = Ret chunks
    /\ len chunks = (len digits + 3 - 1) / 3.
Proof.
  apply SplitData_count.
  - unfold max_int. lia.
  - unfold allocated, maxAlloc, len. simpl. lia.
Defined.

(** Splitting what JoinChunks joined gives the same chunks back, when they
    are chunks of that size: all but the last of [chunkSize] bytes, the last
    of 1 to [chunkSize]. *)
Theorem SplitData_JoinChunks (chunks : list (list byte)) (chunkSize : Z) :
  0 < chunkSize <= max_int ->
  sizes_ok chunkSize chunks ->
  allocated (JoinChunks chunks) ->
  SplitData (JoinChunks chunks) chunkSize = Ret chunks.
Proof.
  intros Hcs Hsz Halloc.
  destruct (SplitJoin.SplitData_spec (JoinChunks chunks) chunkSize Hcs Halloc)
    as (chunks' & Hret & Hcat & _ & Hsz' & _).
  rewrite Hret. f_equal.
  apply (sizes_ok_unique chunkSize ltac:(lia)); auto.
  now rewrite Hcat, SplitJoin.JoinChunks_concat.
Qed.

Lemma SplitData_JoinChunks_witness :
  SplitData
    (JoinChunks (map list_byte_of_string ["012"; "345"; "678"; "9"]%string)) 3
  = Ret (map list_byte_of_string ["012"; "345"; "678"; "9"]%string).
Proof.
  apply SplitData_JoinChunks.
  - unfold max_int. lia.
  - repeat split; vm_compute; congruence.
  - unfold allocated, maxAlloc, len. simpl. lia.
Defined.

(** A chunk size of at least the length of non-empty data gives the data
    back as its only chunk. *)
Theorem SplitData_single_chunk (data : list byte) (chunkSize : Z) :
  data <> [] -> len data <= chunkSize <= max_int -> allocated data ->
  SplitData data chunkSize = Ret [data].
Proof.
  intros Hne Hcs Hdata.
  assert (Hpos : 1 <= len data).
  { destruct data; [congruence | unfold len; simpl; lia]. }
  destruct (SplitJoin.SplitData_spec data chunkSize ltac:(lia) Hdata)
    as (chunks & Hret & Hcat & _ & Hsz & _).
  rewrite Hret. f_equal.
  apply (sizes_ok_unique chunkSize ltac:(lia)); auto.
  - simpl. lia.
  - rewrite Hcat. simpl. now rewrite app_nil_r.
Qed.

Lemma SplitData_single_chunk_witness :
  SplitData digits 20 = Ret [digits].
Proof.
  apply SplitData_single_chunk.
  - discriminate.
  - unfold max_int, len. simpl. lia.
  - unfold allocated, maxAlloc, len. simpl. lia.
Defined.

End Chunks.

(* ================================================================= *)
(** ** Random identifiers, and identifiers as storage paths *)

Module RandomIDs.
Import types utils GoFacts Props Instances.

Lemma make_bytes_ok (n : Z) :
  0 <= n <= maxAlloc ->
  make_bytes n = Ret (repeat x00 (Z.to_nat n))
  /\ len (repeat x00 (Z.to_nat n)) = n.
Proof.
  intros H. unfold make_bytes.
  replace (n <? 0) with false by Zbool_false.
  replace (maxAlloc <? n) with false by Zbool_false.
  split; [reflexivity|]. unfold len. rewrite repeat_length. lia.
Qed.

(** For a length from 0 up, with a random source good for [length/2]
    bytes, GenerateRandomID returns the hex encoding of the next [length/2]
    bytes of the source: [length] hexadecimal digits when [length] is even,
    one fewer when it is odd. *)
Theorem GenerateRandomID_length (rand_Reader : rand.Reader) (length : Z) :
  0 <= length <= maxAlloc ->
  Go.div length 2 <= len rand_Reader ->
  exists id,
    GenerateRandomID rand_Reader length
    = Ret ((id, None), skipn (Z.to_nat (Go.div length 2)) rand_Reader)
    /\ id = hex.EncodeToString
              (firstn (Z.to_nat (Go.div length 2)) rand_Reader)
    /\ is_hex_string id = true
    /\ (Z.even length = true -> strlen id = length)
    /\ (Z.odd length = true -> strlen id = length - 1).
Proof.
  intros Hlen Hrand. unfold Go.div in *.
  rewrite Z.quot_div_nonneg in * by lia.
  assert (Hhalf : 0 <= length / 2 <= maxAlloc).
  { split; [apply Z.div_pos; lia|].
    apply Z.le_trans with length; [|lia]. apply Z.div_le_upper_bound; lia. }
  destruct (make_bytes_ok _ Hhalf) as [Hmake Hmlen].
  unfold GenerateRandomID, Go.div, rand_Read, io.ReadFull.
  rewrite Z.quot_div_nonneg by lia. rewrite Hmake. cbn [bind].
  rewrite Hmlen.
  replace (length / 2 <=? len rand_Reader) with true by Zbool_true.
  eexists. split; [reflexivity|]. split; [reflexivity|].
  split; [apply Identifiers.EncodeToString_is_hex|].
  assert (Hstr : strlen (hex.EncodeToString
                           (firstn (Z.to_nat (length / 2)) rand_Reader))
                 = 2 * (length / 2)).
  { unfold strlen. rewrite Identifiers.EncodeToString_length, length_firstn.
    unfold len in Hrand. lia. }
  rewrite Hstr.
  pose proof (Z.div_mod length 2 ltac:(lia)) as Hdm.
  pose proof (Z.mod_pos_bound length 2 ltac:(lia)) as Hmod.
  split; intros Hpar.
  - apply Z.even_spec in Hpar. destruct Hpar as [k Hk]. lia.
  - apply Z.odd_spec in Hpar. destruct Hpar as [k Hk]. lia.
Qed.

Lemma GenerateRandomID_length_witness :
  exists id,
    GenerateRandomID test_rand 32
    = Ret ((id, None), skipn (Z.to_nat (Go.div 32 2)) test_rand)
    /\ id = hex.EncodeToString (firstn (Z.to_nat (Go.div 32 2)) test_rand)
    /\ is_hex_string id = true
    /\ (Z.even 32 = true -> strlen id = 32)
    /\ (Z.odd 32 = true -> strlen id = 32 - 1).
Proof.
  apply GenerateRandomID_length.
  - unfold maxAlloc. lia.
  - vm_compute. discriminate.
Defined.

(** The edges of GenerateRandomID: a length of -2 or less makes the
    allocation panic; a length of -1, 0 or 1 reads nothing and returns the
    empty identifier without an error. *)
Theorem GenerateRandomID_edges (rand_Reader : rand.Reader) (length : Z) :
  (length <= -2 -> GenerateRandomID rand_Reader length = Panic)
  /\ (-1 <= length <= 1 ->
      GenerateRandomID rand_Reader length
      = Ret ((EmptyString, None), rand_Reader)).
Proof.
  split; intros H; unfold GenerateRandomID.
  - assert (Hq : Go.div length 2 < 0).
    { unfold Go.div. rewrite <- (Z.opp_involutive length), Z.quot_opp_l by lia.
      rewrite Z.quot_div_nonneg by lia.
      assert (1 <= - length / 2) by (apply Z.div_le_lower_bound; lia). lia. }
    unfold make_bytes.
    replace (Go.div length 2 <? 0) with true by Zbool_true. reflexivity.
  - assert (Hq : Go.div length 2 = 0).
    { assert (Hc : length = -1 \/ length = 0 \/ length = 1) by lia.
      destruct Hc as [->|[->| ->]]; reflexivity. }
    rewrite Hq. cbn. unfold rand_Read, io.ReadFull.
    replace (len (@nil byte)) with 0 by reflexivity.
    replace (0 <=? len rand_Reader) with true
      by (pose proof (len_nonneg rand_Reader); Zbool_true).
    reflexivity.
Qed.

Lemma GenerateRandomID_edges_witness :
  GenerateRandomID test_rand (-2) = Panic
  /\ GenerateRandomID test_rand 1 = Ret ((EmptyString, None), test_rand).
Proof.
  split.
  - apply (proj1 (GenerateRandomID_edges test_rand (-2))). lia.
  - apply (proj2 (GenerateRandomID_edges test_rand 1)). lia.
Defined.

Section WithJoin.
Variable filepath_Join : list string -> string.

(** Validation guards the storage path: an identifier ValidateFileID accepts
    never makes GetStoragePath panic, and its shard directory is two
    hexadecimal digits. *)
Theorem valid_id_has_path (baseDir fileID : string) :
  ValidateFileID fileID = true ->
  exists c d rest,
    fileID = String c (String d rest)
    /\ is_hex_char c = true /\ is_hex_char d = true
    /\ GetStoragePath filepath_Join baseDir fileID
       = Ret (filepath_Join
                [baseDir; String c (String d EmptyString); fileID]).
Proof.
  intros H. apply Identifiers.ValidateFileID_iff in H.
  destruct H as [Hlen Hhex].
  destruct fileID as [|c [|d rest]]; try discriminate.
  unfold is_hex_string in Hhex. cbn [all_chars] in Hhex.
  apply andb_prop in Hhex. destruct Hhex as [Hc Hhex].
  apply andb_prop in Hhex. destruct Hhex as [Hd _].
  exists c, d, rest. repeat split; auto.
  apply Storage.GetStoragePath_long.
Qed.

(** Chunk identifiers are identifiers like file identifiers: 64 hexadecimal
    digits that ValidateFileID accepts, for every file id, index and
    content. *)
Theorem GenerateChunkID_validates (fileID : string) (index : Z)
    (content : list byte) :
  is_digest_id (GenerateChunkID fileID index content)
  /\ ValidateFileID (GenerateChunkID fileID index content) = true.
Proof.
  rewrite Identifiers.GenerateChunkID_eq.
  pose proof (Identifiers.EncodeToString_Sum256_id
                (list_byte_of_string fileID ++ [byte_of_int index]
                 ++ content)) as Hid.
  split; [exact Hid|]. apply Identifiers.ValidateFileID_iff.
  destruct Hid as (H1 & H2 & _). auto.
Qed.

(** A random identifier of length 64 is one ValidateFileID accepts. *)
Theorem GenerateRandomID_validates (rand_Reader : rand.Reader) :
  32 <= len rand_Reader ->
  exists id,
    GenerateRandomID rand_Reader 64
    = Ret ((id, None), skipn 32 rand_Reader)
    /\ ValidateFileID id = true.
Proof.
  intros Hrand.
  unfold GenerateRandomID, rand_Read, io.ReadFull.
  change (make_bytes (Go.div 64 2)) with (Ret (repeat x00 32)).
  cbn [bind]. change (len (repeat x00 32)) with 32.
  replace (32 <=? len rand_Reader) with true by Zbool_true.
  eexists. split; [reflexivity|].
  apply Identifiers.ValidateFileID_iff. split.
  - rewrite Identifiers.EncodeToString_length, length_firstn.
    unfold len in Hrand. lia.
  - apply Identifiers.EncodeToString_is_hex.
Qed.

End WithJoin.

Lemma valid_id_has_path_witness :
  exists c d rest,
    CalculateHash digits = String c (String d rest)
    /\ is_hex_char c = true /\ is_hex_char d = true
    /\ GetStoragePath slash_Join "/storage" (CalculateHash digits)
       = Ret (slash_Join
                ["/storage"%string; String c (String d EmptyString);
                 CalculateHash digits]).
Proof.
  apply valid_id_has_path. vm_compute. reflexivity.
Defined.

Definition test_rand32 : rand.Reader :=
  list_byte_of_string "0123456789abcdef0123456789abcdef".

Lemma GenerateRandomID_validates_witness :
  exists id,
    GenerateRandomID test_rand32 64 = Ret ((id, None), skipn 32 test_rand32)
    /\ ValidateFileID id = true.
Proof.
  apply GenerateRandomID_validates. unfold len. simpl. lia.
Defined.

End RandomIDs.

(* ================================================================= *)
(** ** FormatBytes: the choice of unit *)

Module Formatting.
Import utils GoFacts.

Lemma pow1024_small (e : Z) :
  0 <= e -> 1024 ^ (e + 1) <= max_int -> e <= 5.
Proof.
  intros He H. destruct (Z_le_gt_dec e 5) as [Hle|Hgt]; [exact Hle|].
  exfalso.
  assert (H7 : 1024 ^ 7 <= 1024 ^ (e + 1))
    by (apply Z.pow_le_mono_r; lia).
  change (1024 ^ 7) with 1180591620717411303424 in H7.
  unfold max_int in H. lia.
Qed.

Lemma pow1024_step (e : Z) :
  0 <= e -> 1024 ^ (e + 1 + 1) = 1024 ^ (e + 1) * 1024.
Proof.
  intros He. rewrite (Z.pow_add_r 1024 (e + 1) 1) by lia. reflexivity.
Qed.

Section Loop.
Variable bytes : Z.
Hypothesis bytes_int64 : 0 <= bytes <= max_int.

(** The loop stops with the largest power of 1024 that is at most [bytes],
    after at most five steps. *)
Lemma FormatBytes_loop_spec (fuel : nat) :
  forall n div exp,
    0 <= exp -> div = 1024 ^ (exp + 1) -> div <= bytes -> n = bytes / div ->
    6 <= Z.of_nat fuel + exp ->
    exists exp',
      FormatBytes_loop fuel n div exp = Ret (1024 ^ (exp' + 1), exp')
      /\ exp <= exp' <= 5
      /\ 1024 ^ (exp' + 1) <= bytes < 1024 ^ (exp' + 1) * 1024.
Proof.
  induction fuel as [|fuel IH]; intros n div exp Hexp Hdiv Hle Hn Hfuel.
  - assert (exp <= 5) by (apply pow1024_small; [lia | subst div; lia]).
    lia.
  - assert (Hdpos : 0 < div) by (subst div; apply Z.pow_pos_nonneg; lia).
    assert (He5 : exp <= 5) by (apply pow1024_small; [lia | subst div; lia]).
    cbn [FormatBytes_loop]. unfold FormatBytes_unit.
    destruct (n >=? 1024) eqn:E.
    + rewrite Z.geb_leb in E. apply Z.leb_le in E.
      assert (Hbig : div * 1024 <= bytes).
      { subst n.
        assert (1024 * div <= bytes); [|lia].
        pose proof (Z.div_mod bytes div ltac:(lia)) as Hdm.
        pose proof (Z.mod_pos_bound bytes div Hdpos) as Hmod. nia. }
      assert (Hn0 : 0 <= n) by (subst n; apply Z.div_pos; lia).
      rewrite (wrap_id (div * 1024))
        by (unfold is_int, min_int, max_int in *; lia).
      rewrite (wrap_id (exp + 1))
        by (unfold is_int, min_int, max_int in *; lia).
      unfold Go.div. rewrite Z.quot_div_nonneg by lia.
      destruct (IH (n / 1024) (div * 1024) (exp + 1)) as (exp' & Hr & Hb & Hp).
      * lia.
      * subst div. symmetry. apply pow1024_step. lia.
      * exact Hbig.
      * subst n. apply Z.div_div; lia.
      * lia.
      * exists exp'. split; [exact Hr|]. split; [lia | exact Hp].
    + rewrite Z.geb_leb in E. apply Z.leb_gt in E.
      exists exp. subst div. split; [reflexivity|]. split; [lia|].
      split; [exact Hle|].
      subst n.
      pose proof (Z.div_mod bytes (1024 ^ (exp + 1)) ltac:(lia)) as Hdm.
      pose proof (Z.mod_pos_bound bytes (1024 ^ (exp + 1)) Hdpos) as Hmod.
      nia.
Qed.

End Loop.

(** FormatBytes never panics on the index into "KMGTPE", whatever the
    [int64]. Below 1024 (negative values included) it formats the number
    itself with "%d B"; from 1024 up it picks the unit [exp] of 0 to 5 with
    [1024^(exp+1) <= bytes < 1024^(exp+2)] and formats
    [bytes / 1024^(exp+1)] with the letter at [exp]. *)
Theorem FormatBytes_unit_choice (bytes : Z) :
  min_int <= bytes <= max_int ->
  (bytes < 1024 ->
   FormatBytes bytes = Ret (fmt.Sprintf "%d B" [fmt.Int bytes]))
  /\ (1024 <= bytes ->
      exists exp c,
        0 <= exp <= 5
        /\ String.get (Z.to_nat exp) "KMGTPE" = Some c
        /\ 1024 ^ (exp + 1) <= bytes < 1024 ^ (exp + 1) * 1024
        /\ FormatBytes bytes
           = Ret (fmt.Sprintf "%.1f %cB"
                    [fmt.Float64Quot bytes (1024 ^ (exp + 1)); fmt.Char c])).
Proof.
  intros Hint. unfold FormatBytes, FormatBytes_unit. split; intros H.
  - replace (bytes <? 1024) with true by Zbool_true. reflexivity.
  - replace (bytes <? 1024) with false by Zbool_false.
    unfold Go.div. rewrite Z.quot_div_nonneg by lia.
    destruct (FormatBytes_loop_spec bytes ltac:(lia) 64
                (bytes / 1024) 1024 0)
      as (exp & Hr & Hb & Hp); try lia; try reflexivity.
    rewrite Hr. cbn [bind snd fst].
    assert (Hc : exp = 0 \/ exp = 1 \/ exp = 2 \/ exp = 3 \/ exp = 4
                 \/ exp = 5) by lia.
    exists exp.
    destruct Hc as [->|[->|[->|[->|[->| ->]]]]];
      eexists; (split; [lia|]); (split; [reflexivity|]);
      (split; [exact Hp | reflexivity]).
Qed.

Lemma FormatBytes_unit_choice_witness :
  (1536 < 1024 ->
   FormatBytes 1536 = Ret (fmt.Sprintf "%d B" [fmt.Int 1536]))
  /\ (1024 <= 1536 ->
      exists exp c,
        0 <= exp <= 5
        /\ String.get (Z.to_nat exp) "KMGTPE" = Some c
        /\ 1024 ^ (exp + 1) <= 1536 < 1024 ^ (exp + 1) * 1024
        /\ FormatBytes 1536
           = Ret (fmt.Sprintf "%.1f %cB"
                    [fmt.Float64Quot 1536 (1024 ^ (exp + 1)); fmt.Char c])).
Proof.
  apply FormatBytes_unit_choice. unfold min_int, max_int. lia.
Defined.

(** The package's own test cases, up to the formatting. *)
Example FormatBytes_test :
  FormatBytes 512 = Ret (fmt.Sprintf "%d B" [fmt.Int 512])
  /\ FormatBytes 1536
     = Ret (fmt.Sprintf "%.1f %cB"
              [fmt.Float64Quot 1536 1024; fmt.Char "K"])
  /\ FormatBytes 1073741824
     = Ret (fmt.Sprintf "%.1f %cB"
              [fmt.Float64Quot 1073741824 1073741824; fmt.Char "G"]).
Proof. repeat split; vm_compute; reflexivity. Qed.

End Formatting.

(* ================================================================= *)
(** ** Names of node statuses and message types *)

Module Names.
Import types.

(** The names tell the declared constants apart, and every other value is
    "unknown": for node statuses 0 to 3 and message types 0 to 7. *)
Theorem String_names :
  (forall s : NodeStatus,
      NodeStatus_String s = "unknown"%string <-> ~ 0 <= s <= 3)
  /\ (forall s t : NodeStatus,
        0 <= s <= 3 -> 0 <= t <= 3 ->
        NodeStatus_String s = NodeStatus_String t -> s = t)
  /\ (forall m : MessageType,
        MessageType_String m = "unknown"%string <-> ~ 0 <= m <= 7)
  /\ (forall m n : MessageType,
        0 <= m <= 7 -> 0 <= n <= 7 ->
        MessageType_String m = MessageType_String n -> m = n).
Proof.
  assert (HN : forall s : NodeStatus,
             NodeStatus_String s = "unknown"%string <-> ~ 0 <= s <= 3).
  { intros s. unfold NodeStatus_String, NodeStatusOnline, NodeStatusOffline,
      NodeStatusSuspended, NodeStatusMaintenance.
    repeat match goal with
           | |- context [?a =? ?b] =>
               destruct (Z.eqb_spec a b); [subst; split; [discriminate|lia]|]
           end.
    split; [lia | reflexivity]. }
  assert (HM : forall m : MessageType,
             MessageType_String m = "unknown"%string <-> ~ 0 <= m <= 7).
  { intros m. unfold MessageType_String, MessageTypeFileRequest,
      MessageTypeFileResponse, MessageTypeChunkRequest,
      MessageTypeChunkResponse, MessageTypeNodeAnnouncement,
      MessageTypeHeartbeat, MessageTypeSyncRequest, MessageTypeSyncResponse.
    repeat match goal with
           | |- context [?a =? ?b] =>
               destruct (Z.eqb_spec a b); [subst; split; [discriminate|lia]|]
           end.
    split; [lia | reflexivity]. }
  split; [exact HN|]. split; [|split; [exact HM|]].
  - intros s t Hs Ht H.
    assert (Hs' : In s [0; 1; 2; 3]) by (cbn [In]; lia).
    assert (Ht' : In t [0; 1; 2; 3]) by (cbn [In]; lia).
    cbn [In] in Hs', Ht'.
    repeat match goal with
           | Hd : _ \/ _ |- _ => destruct Hd as [Hd|Hd]
           end;
      subst; try contradiction; try reflexivity; discriminate H.
  - intros m n Hm Hn H.
    assert (Hm' : In m [0; 1; 2; 3; 4; 5; 6; 7]) by (cbn [In]; lia).
    assert (Hn' : In n [0; 1; 2; 3; 4; 5; 6; 7]) by (cbn [In]; lia).
    cbn [In] in Hm', Hn'.
    repeat match goal with
           | Hd : _ \/ _ |- _ => destruct Hd as [Hd|Hd]
           end;
      subst; try contradiction; try reflexivity; discriminate H.
Qed.

End Names.

(* ================================================================= *)
(** ** Configuration *)

Module Configuration.
Import config utils GoFacts Props.

Lemma Validate_iff (c : Config) :
  Validate c = None
  <-> 0 < ChunkSize (Node c) /\ 0 < Replicas (Node c)
      /\ 0 < Port (API c) <= 65535 /\ 0 < MaxFileSize (Storage c).
Proof.
  unfold Validate.
  destruct (Z.leb_spec (ChunkSize (Node c)) 0);
    [split; [discriminate | lia]|].
  destruct (Z.leb_spec (Replicas (Node c)) 0);
    [split; [discriminate | lia]|].
  destruct (Z.leb_spec (Port (API c)) 0);
    [split; [discriminate | lia]|].
  destruct (Port (API c) >? 65535) eqn:E; cbn [orb].
  - apply Z.gtb_lt in E. split; [discriminate | lia].
  - rewrite Z.gtb_ltb in E. apply Z.ltb_ge in E.
    destruct (Z.leb_spec (MaxFileSize (Storage c)) 0);
      [split; [discriminate | lia]|].
    split; [lia | reflexivity].
Qed.

(** Validate accepts a configuration exactly when the chunk size, the
    replica count and the maximal file size are positive and the API port is
    between 1 and 65535; the default configuration is accepted whatever
    the home directory; and the chunk size of an accepted configuration is
    one SplitData chunks by: non-empty data comes back in chunks of at most
    that size that join to the data. *)
Theorem Validate_accepts :
  (forall c,
      Validate c = None
      <-> 0 < ChunkSize (Node c) /\ 0 < Replicas (Node c)
          /\ 0 < Port (API c) <= 65535 /\ 0 < MaxFileSize (Storage c))
  /\ (forall filepath_Join homeDir,
        Validate (DefaultConfig filepath_Join homeDir) = None)
  /\ (forall c data,
        Validate c = None -> ChunkSize (Node c) <= max_int ->
        allocated data ->
        exists chunks,
          SplitData data (ChunkSize (Node c)) = Ret chunks
          /\ JoinChunks chunks = data
          /\ Forall (fun chunk => 1 <= len chunk <= ChunkSize (Node c))
               chunks).
Proof.
  split; [exact Validate_iff|]. split; [reflexivity|].
  intros c data Hv Hmax Hdata. apply Validate_iff in Hv.
  destruct (SplitJoin.SplitData_spec data (ChunkSize (Node c))
              ltac:(lia) Hdata) as (chunks & Hret & Hcat & _ & Hsz & _).
  exists chunks. split; [exact Hret|].
  split; [now rewrite SplitJoin.JoinChunks_concat|].
  clear Hret Hcat. induction chunks as [|chunk rest IH]; constructor.
  - destruct rest; simpl in Hsz; lia.
  - apply IH. destruct rest; simpl in Hsz; [exact I | tauto].
Qed.

End Configuration.

(* ================================================================= *)
(** ** The file handlers and the metadata map *)

Module Handlers.
Import types api Instances.

Lemma lookup_delete_eq (key : string) (m : Files) :
  lookup key (delete key m) = None.
Proof.
  induction m as [|[k v] rest IH]; [reflexivity|].
  unfold delete in *. cbn [filter fst].
  destruct (String.eqb key k) eqn:E; cbn [negb]; [exact IH|].
  cbn [lookup]. now rewrite E.
Qed.

Lemma lookup_delete_ne (key other : string) (m : Files) :
  other <> key -> lookup other (delete key m) = lookup other m.
Proof.
  intros Hne. induction m as [|[k v] rest IH]; [reflexivity|].
  unfold delete in *. cbn [filter fst].
  destruct (String.eqb key k) eqn:E; cbn [negb lookup].
  - apply String.eqb_eq in E. subst k.
    replace (String.eqb other key) with false
      by (symmetry; now apply String.eqb_neq).
    exact IH.
  - now rewrite IH.
Qed.

Lemma lookup_insert_eq (key : string) (v : FileInfo) (m : Files) :
  lookup key (insert key v m) = Some v.
Proof. unfold insert. cbn [lookup]. now rewrite String.eqb_refl. Qed.

Lemma lookup_insert_ne (key other : string) (v : FileInfo) (m : Files) :
  other <> key -> lookup other (insert key v m) = lookup other m.
Proof.
  intros Hne. unfold insert. cbn [lookup].
  replace (String.eqb other key) with false
    by (symmetry; now apply String.eqb_neq).
  now apply lookup_delete_ne.
Qed.

(** Whether a key is registered after an insert under a registered key. *)
Lemma lookup_insert_same_keys (key k : string) (v old : FileInfo)
    (m : Files) :
  lookup key m = Some old ->
  (lookup k (insert key v m) = None <-> lookup k m = None).
Proof.
  intros Hold. destruct (string_dec k key) as [->|Hne].
  - rewrite lookup_insert_eq, Hold. split; discriminate.
  - now rewrite lookup_insert_ne.
Qed.

Section WithManager.
Context {M : Type} {CM : ChunkManager M}.

(** A stored upload is registered under the id it answers with: the
    answer is 200 with [file_id], [file_name], [size] and [hash] as the
    chunk manager left them, asking for the file info under that id then
    answers 200 with the same record (whatever was registered under the id
    before), and the records under all other ids are as they were. *)
Theorem uploadFile_registers (s : Server M)
    (Filename Header_ContentType X_Owner : string) (data : list byte)
    (cm : M) (stored : FileInfo) :
  StoreFile (chunkManager s)
    (upload_FileInfo Filename Header_ContentType X_Owner data) data
  = ((cm, stored), None) ->
  exists s',
    uploadFile s (FormFile_file Filename Header_ContentType (data, None))
      X_Owner
    = (s', {| Status := StatusOK; Headers := [];
              Body := JSON (JObject
                        [("file_id"%string, JString (ID stored));
                         ("file_name"%string, JString (Name stored));
                         ("size"%string, JInt (Size stored));
                         ("hash"%string, JString (Hash stored))]) |})
    /\ chunkManager s' = cm
    /\ getFileInfo s' (ID stored)
       = (s', {| Status := StatusOK; Headers := [];
                 Body := JSON (JFileInfo stored) |})
    /\ forall other,
         other <> ID stored ->
         lookup other (files s') = lookup other (files s).
Proof.
  intros Hstore. eexists. unfold uploadFile. rewrite Hstore.
  split; [reflexivity|]. split; [reflexivity|]. split.
  - unfold getFileInfo. cbn [files]. now rewrite lookup_insert_eq.
  - intros other Hne. cbn [files]. now apply lookup_insert_ne.
Qed.

(** An upload that does not answer 200 registers nothing: the metadata map
    is as it was, and the answer is 400 for a request without a readable
    form file and 500 otherwise. *)
Theorem uploadFile_failure (s s' : Server M) (form : FormFile)
    (X_Owner : string) (r : Response) :
  uploadFile s form X_Owner = (s', r) ->
  Status r <> StatusOK ->
  files s' = files s
  /\ (Status r = StatusBadRequest
      <-> exists err, form = FormFile_error err)
  /\ (Status r = StatusInternalServerError
      <-> exists Filename Header_ContentType ReadAll,
            form = FormFile_file Filename Header_ContentType ReadAll).
Proof.
  unfold uploadFile. intros Hup Hst.
  destruct form as [err|Filename ct [data [err|]]].
  - injection Hup as <- <-. cbn.
    split; [reflexivity|]. split; split; eauto; try discriminate.
    intros (f & c & ra & H). discriminate.
  - injection Hup as <- <-. cbn.
    split; [reflexivity|]. split; split; eauto; try discriminate.
    intros (e & H). discriminate.
  - destruct (StoreFile (chunkManager s)
                (upload_FileInfo Filename ct X_Owner data) data)
      as [[cm stored] [err|]]; injection Hup as <- <-; cbn in *.
    + split; [reflexivity|]. split; split; eauto; try discriminate.
      intros (e & H). discriminate.
    + congruence.
Qed.

(** A successful delete removes the id from the metadata map and nothing
    else: the answer is 200, and from then on the file info, a download and
    a second delete under that id all answer 404 without calling the chunk
    manager, while the records under all other ids are as they were. *)
Theorem deleteFile_removes (s : Server M) (fileID : string)
    (fileInfo left : FileInfo) (cm : M) :
  lookup fileID (files s) = Some fileInfo ->
  DeleteFile (chunkManager s) fileInfo = ((cm, left), None) ->
  exists s',
    deleteFile s fileID
    = (s', {| Status := StatusOK; Headers := [];
              Body := H_message "File deleted successfully" |})
    /\ chunkManager s' = cm
    /\ lookup fileID (files s') = None
    /\ getFileInfo s' fileID
       = (s', {| Status := StatusNotFound; Headers := [];
                 Body := H_error "File not found" |})
    /\ downloadFile s' fileID
       = (s', {| Status := StatusNotFound; Headers := [];
                 Body := H_error "File not found" |})
    /\ deleteFile s' fileID
       = (s', {| Status := StatusNotFound; Headers := [];
                 Body := H_error "File not found" |})
    /\ forall other,
         other <> fileID ->
         lookup other (files s') = lookup other (files s).
Proof.
  intros Hfound Hdel. eexists. unfold deleteFile at 1.
  rewrite Hfound, Hdel.
  split; [reflexivity|]. split; [reflexivity|].
  assert (Hgone : lookup fileID (delete fileID (files s)) = None)
    by apply lookup_delete_eq.
  split; [exact Hgone|].
  unfold getFileInfo, downloadFile, deleteFile. cbn [files].
  rewrite Hgone. repeat split.
  intros other Hne. now apply lookup_delete_ne.
Qed.

(** Only a delete that answers 200 unregisters anything: after a delete
    with any other answer, and after any download, the same ids are
    registered as before. *)
Theorem ids_stay_registered (s s' : Server M) (fileID : string)
    (r : Response) :
  (deleteFile s fileID = (s', r) /\ Status r <> StatusOK)
  \/ downloadFile s fileID = (s', r) ->
  forall k, lookup k (files s') = None <-> lookup k (files s) = None.
Proof.
  intros [[Hdel Hst]|Hdown] k.
  - unfold deleteFile in Hdel.
    destruct (lookup fileID (files s)) as [fileInfo|] eqn:Hfound.
    + destruct (DeleteFile (chunkManager s) fileInfo)
        as [[cm left] [err|]]; injection Hdel as <- <-; cbn in *.
      * now apply (lookup_insert_same_keys fileID k left fileInfo).
      * congruence.
    + injection Hdel as <- <-. tauto.
  - unfold downloadFile in Hdown.
    destruct (lookup fileID (files s)) as [fileInfo|] eqn:Hfound.
    + destruct (RetrieveFile (chunkManager s) fileInfo)
        as [[cm left] [data [err|]]]; injection Hdown as <- <-; cbn;
        now apply (lookup_insert_same_keys fileID k left fileInfo).
    + injection Hdown as <- <-. tauto.
Qed.

(** Two uploads whose names and contents differ but concatenate to the
    same bytes share an id, so the second takes the place of the first: when
    the chunk manager stores both and keeps their ids, asking for the file
    info under the id the first upload answered with returns the record of
    the second. *)
Theorem uploadFile_collision (s : Server M)
    (name1 type1 owner1 : string) (data1 : list byte)
    (name2 type2 owner2 : string) (data2 : list byte)
    (cm1 cm2 : M) (stored1 stored2 : FileInfo) :
  list_byte_of_string name1 ++ data1 = list_byte_of_string name2 ++ data2 ->
  StoreFile (chunkManager s) (upload_FileInfo name1 type1 owner1 data1) data1
  = ((cm1, stored1), None) ->
  ID stored1 = GenerateFileID name1 data1 ->
  StoreFile cm1 (upload_FileInfo name2 type2 owner2 data2) data2
  = ((cm2, stored2), None) ->
  ID stored2 = GenerateFileID name2 data2 ->
  exists s1 r1 s2 r2,
    uploadFile s (FormFile_file name1 type1 (data1, None)) owner1 = (s1, r1)
    /\ uploadFile s1 (FormFile_file name2 type2 (data2, None)) owner2
       = (s2, r2)
    /\ Status r1 = StatusOK /\ Status r2 = StatusOK
    /\ ID stored1 = ID stored2
    /\ getFileInfo s2 (ID stored1)
       = (s2, {| Status := StatusOK; Headers := [];
                 Body := JSON (JFileInfo stored2) |}).
Proof.
  intros Hcat Hst1 Hid1 Hst2 Hid2.
  assert (Hid : ID stored1 = ID stored2).
  { rewrite Hid1, Hid2, !Identifiers.GenerateFileID_eq. now rewrite Hcat. }
  do 4 eexists. unfold uploadFile at 1. rewrite Hst1.
  split; [reflexivity|]. unfold uploadFile. cbn [chunkManager].
  rewrite Hst2. split; [reflexivity|].
  split; [reflexivity|]. split; [reflexivity|]. split; [exact Hid|].
  unfold getFileInfo. cbn [files]. rewrite Hid.
  now rewrite lookup_insert_eq.
Qed.

End WithManager.

(** A server to run: nothing stored, nothing registered; then one upload. *)
Definition server0 : Server memory := {| chunkManager := []; files := [] |}.

Definition stored0 : FileInfo :=
  snd (fst (StoreFile (chunkManager server0)
              (upload_FileInfo "a.txt" "text/plain" "alice" digits) digits)).

Definition server1 : Server memory :=
  fst (uploadFile server0
         (FormFile_file "a.txt" "text/plain" (digits, None)) "alice").

Lemma uploadFile_registers_witness :
  exists s',
    uploadFile server0 (FormFile_file "a.txt" "text/plain" (digits, None))
      "alice"
    = (s', {| Status := StatusOK; Headers := [];
              Body := JSON (JObject
                        [("file_id"%string, JString (ID stored0));
                         ("file_name"%string, JString (Name stored0));
                         ("size"%string, JInt (Size stored0));
                         ("hash"%string, JString (Hash stored0))]) |})
    /\ chunkManager s' = [(ID stored0, digits)]
    /\ getFileInfo s' (ID stored0)
       = (s', {| Status := StatusOK; Headers := [];
                 Body := JSON (JFileInfo stored0) |})
    /\ forall other,
         other <> ID stored0 ->
         lookup other (files s') = lookup other (files server0).
Proof.
  apply (uploadFile_registers server0 "a.txt" "text/plain" "alice" digits).
  reflexivity.
Defined.

(** A chunk manager whose store is full: StoreFile always fails. *)
Definition full_manager : ChunkManager unit := {|
  StoreFile m f data := ((m, f), Some (errors_New "storage full"));
  RetrieveFile m f := ((m, f), ([], Some (errors_New "file not found")));
  DeleteFile m f := ((m, f), None)
|}.

(** A server with one record registered and no room to store more. *)
Definition server_full : Server unit :=
  {| chunkManager := tt; files := [(ID stored0, stored0)] |}.

(** Two failing uploads to servers with a record registered: one whose form
    file cannot be read, one the chunk manager fails to store. *)
Lemma uploadFile_failure_witness :
  (files (fst (uploadFile server1
                 (FormFile_file "b.txt" "text/plain"
                    (digits, Some io_ErrUnexpectedEOF)) "bob"))
   = files server1
   /\ (Status (snd (uploadFile server1
                      (FormFile_file "b.txt" "text/plain"
                         (digits, Some io_ErrUnexpectedEOF)) "bob"))
       = StatusBadRequest
       <-> exists err,
             FormFile_file "b.txt" "text/plain"
               (digits, Some io_ErrUnexpectedEOF)
             = FormFile_error err)
   /\ (Status (snd (uploadFile server1
                      (FormFile_file "b.txt" "text/plain"
                         (digits, Some io_ErrUnexpectedEOF)) "bob"))
       = StatusInternalServerError
       <-> exists Filename Header_ContentType ReadAll,
             FormFile_file "b.txt" "text/plain"
               (digits, Some io_ErrUnexpectedEOF)
             = FormFile_file Filename Header_ContentType ReadAll))
  /\ (files (fst (uploadFile (CM := full_manager) server_full
                    (FormFile_file "b.txt" "text/plain" (digits, None))
                    "bob"))
      = files server_full
      /\ (Status (snd (uploadFile (CM := full_manager) server_full
                         (FormFile_file "b.txt" "text/plain" (digits, None))
                         "bob"))
          = StatusBadRequest
          <-> exists err,
                FormFile_file "b.txt" "text/plain" (digits, None)
                = FormFile_error err)
      /\ (Status (snd (uploadFile (CM := full_manager) server_full
                         (FormFile_file "b.txt" "text/plain" (digits, None))
                         "bob"))
          = StatusInternalServerError
          <-> exists Filename Header_ContentType ReadAll,
                FormFile_file "b.txt" "text/plain" (digits, None)
                = FormFile_file Filename Header_ContentType ReadAll)).
Proof.
  split.
  - eapply (uploadFile_failure (CM := memory_manager)).
    + apply surjective_pairing.
    + vm_compute. discriminate.
  - eapply (uploadFile_failure (CM := full_manager)).
    + apply surjective_pairing.
    + vm_compute. discriminate.
Defined.

Lemma deleteFile_removes_witness :
  exists s',
    deleteFile server1 (ID stored0)
    = (s', {| Status := StatusOK; Headers := [];
              Body := H_message "File deleted successfully" |})
    /\ chunkManager s' = []
    /\ lookup (ID stored0) (files s') = None
    /\ getFileInfo s' (ID stored0)
       = (s', {| Status := StatusNotFound; Headers := [];
                 Body := H_error "File not found" |})
    /\ downloadFile s' (ID stored0)
       = (s', {| Status := StatusNotFound; Headers := [];
                 Body := H_error "File not found" |})
    /\ deleteFile s' (ID stored0)
       = (s', {| Status := StatusNotFound; Headers := [];
                 Body := H_error "File not found" |})
    /\ forall other,
         other <> ID stored0 ->
         lookup other (files s') = lookup other (files server1).
Proof.
  apply (deleteFile_removes server1 (ID stored0) stored0 stored0).
  - vm_compute. reflexivity.
  - vm_compute. reflexivity.
Defined.

Lemma ids_stay_registered_witness :
  lookup (ID stored0)
    (files (fst (downloadFile server1 (ID stored0)))) = None
  <-> lookup (ID stored0) (files server1) = None.
Proof.
  apply (ids_stay_registered server1
           (fst (downloadFile server1 (ID stored0))) (ID stored0)
           (snd (downloadFile server1 (ID stored0)))).
  right. apply surjective_pairing.
Defined.

Definition stored_ab : FileInfo :=
  snd (fst (StoreFile (chunkManager server0)
              (upload_FileInfo "ab" "text/plain" "alice"
                 (list_byte_of_string "c"))
              (list_byte_of_string "c"))).

Definition manager_ab : memory :=
  fst (fst (StoreFile (chunkManager server0)
              (upload_FileInfo "ab" "text/plain" "alice"
                 (list_byte_of_string "c"))
              (list_byte_of_string "c"))).

Definition stored_a : FileInfo :=
  snd (fst (StoreFile manager_ab
              (upload_FileInfo "a" "text/plain" "bob"
                 (list_byte_of_string "bc"))
              (list_byte_of_string "bc"))).

Lemma uploadFile_collision_witness :
  exists s1 r1 s2 r2,
    uploadFile server0
      (FormFile_file "ab" "text/plain" (list_byte_of_string "c", None))
      "alice" = (s1, r1)
    /\ uploadFile s1
         (FormFile_file "a" "text/plain" (list_byte_of_string "bc", None))
         "bob" = (s2, r2)
    /\ Status r1 = StatusOK /\ Status r2 = StatusOK
    /\ ID stored_ab = ID stored_a
    /\ getFileInfo s2 (ID stored_ab)
       = (s2, {| Status := StatusOK; Headers := [];
                 Body := JSON (JFileInfo stored_a) |}).
Proof.
  apply (uploadFile_collision server0
           "ab" "text/plain" "alice" (list_byte_of_string "c")
           "a" "text/plain" "bob" (list_byte_of_string "bc")
           manager_ab (fst (fst (StoreFile manager_ab
                                   (upload_FileInfo "a" "text/plain" "bob"
                                      (list_byte_of_string "bc"))
                                   (list_byte_of_string "bc"))))
           stored_ab stored_a); reflexivity.
Defined.

End Handlers.
